(** * server.js: port acquisition with fallback, and the two request responders

    The development has two parts.

    - [Acquisition]: the start-up code of server.js (startServer,
      startHttpFallback, startHttpServerWithFallback) run on a model of the
      Node.js event loop: a heap of http.Server objects with their listener
      lists, the process.nextTick queue, the timer list, the console and the
      exit status.  The operating system is an oracle that answers each
      listen call.
    - [Responder]: the request handlers, the bare http handler of
      startHttpFallback and the Express application built by app.use/app.get. *)

From Stdlib Require Import Ascii.
From stdpp Require Import base numbers list strings pretty.

Open Scope Z_scope.

(** The two listener implementations: the Express application (Primary) and
    the bare http server (Fallback). *)
Inductive Strategy := Primary | Fallback.

Global Instance Strategy_eq_dec : EqDecision Strategy.
Proof. solve_decision. Defined.

(** The double quote character, for the console lines that contain it. *)
Definition dq : string := String "034"%char EmptyString.

Module Acquisition.

(** Configuration constants (server.js lines 24-26). *)
Definition DEFAULT_PORT : Z := 3000.
Definition MAX_PORT : Z := 3010.
Definition RETRY_DELAY : Z := 1000.

(** What the operating system answers to one listen call: the socket is
    bound, or the call fails with an error code ([error.code]). *)
Inductive ListenResult :=
| ListenOk
| ListenErr (code : string).

Definition EADDRINUSE : string := "EADDRINUSE".

(** The function values server.js creates, each with the variables it
    captures. *)
Inductive Closure :=
| startServer_listening (port : Z)            (* lines 74-79 *)
| startServer_error (port retryCount : Z)     (* lines 82-104 *)
| startServer_timeout (port retryCount : Z)   (* lines 96-98 *)
| fallback_listening (port : Z)               (* lines 144-149 *)
| fallback_error (server : nat) (port : Z).   (* lines 151-159 *)

(** An http.Server object: its request listener, its socket handle (the
    bound port, if any), the callbacks registered by once('listening') and
    the listeners registered by on('error'), both in registration order. *)
Record Server := mkServer {
  requestListener : Strategy;
  handle : option Z;
  listeningOnce : list Closure;
  errorListeners : list Closure
}.

(** Entries of the process.nextTick queue: net.Server defers both events. *)
Inductive Tick :=
| emitListeningNT (server : nat)
| emitErrorNT (server : nat) (code : string).

(** What an observer of the process sees. *)
Inductive Event :=
| ConsoleLog (line : string)
| ConsoleError (line : string)
| Listen (via : Strategy) (port : Z) (result : ListenResult)
| Wait (ms : Z)
| Uncaught (code : string)
| ProcessExit (status : Z).

(** The state of the process.  Servers are addressed by their index in
    [heap]; [timers] is sorted by due time; [trace] has the newest event
    first; [exitCode] is [None] while the process runs. *)
Record Process := mkProcess {
  heap : list Server;
  nextTickQueue : list Tick;
  timers : list (Z * Closure);
  clock : Z;
  listenCalls : nat;
  trace : list Event;
  exitCode : option Z
}.

Definition initial : Process := mkProcess [] [] [] 0 0 [] None.

(** Synchronous JavaScript: a state transformer whose result is [None] when
    control was abandoned, by an exception nobody catches or by
    process.exit. *)
Definition JS (A : Type) : Type := Process -> option A * Process.

Global Instance JS_ret : MRet JS := fun A a p => (Some a, p).
Global Instance JS_bind : MBind JS := fun A B f m p =>
  match m p with
  | (Some a, p') => f a p'
  | (None, p') => (None, p')
  end.

Definition record (e : Event) (p : Process) : Process :=
  mkProcess (heap p) (nextTickQueue p) (timers p) (clock p) (listenCalls p)
            (e :: trace p) (exitCode p).

Definition console_log (line : string) : JS unit :=
  fun p => (Some tt, record (ConsoleLog line) p).

Definition console_error (line : string) : JS unit :=
  fun p => (Some tt, record (ConsoleError line) p).

Definition terminate (status : Z) (p : Process) : Process :=
  mkProcess (heap p) (nextTickQueue p) (timers p) (clock p) (listenCalls p)
            (trace p) (Some status).

(** process.exit(status) *)
Definition process_exit (status : Z) : JS unit :=
  fun p => (None, terminate status (record (ProcessExit status) p)).

(** server.js has no try/catch and installs no uncaughtException handler: a
    thrown error ends the process with exit status 1. *)
Definition throw (code : string) : JS unit :=
  fun p => (None, terminate 1 (record (Uncaught code) p)).

(** http.createServer(requestListener) *)
Definition createServer (l : Strategy) : JS nat :=
  fun p => (Some (length (heap p)),
            mkProcess (heap p ++ [mkServer l None [] []]) (nextTickQueue p)
                      (timers p) (clock p) (listenCalls p) (trace p) (exitCode p)).

(** server.on('error', listener) *)
Definition on_error (server : nat) (listener : Closure) : JS unit :=
  fun p =>
    match heap p !! server with
    | None => (None, p)
    | Some srv =>
        let srv' := mkServer (requestListener srv) (handle srv) (listeningOnce srv)
                             (errorListeners srv ++ [listener]) in
        (Some tt, mkProcess (<[server := srv']> (heap p)) (nextTickQueue p)
                            (timers p) (clock p) (listenCalls p) (trace p) (exitCode p))
    end.

Fixpoint schedule (t : Z * Closure) (ts : list (Z * Closure)) : list (Z * Closure) :=
  match ts with
  | [] => [t]
  | u :: ts' => if t.1 <? u.1 then t :: ts else u :: schedule t ts'
  end.

(** setTimeout(callback, delay) *)
Definition setTimeout (callback : Closure) (delay : Z) : JS unit :=
  fun p => (Some tt,
            mkProcess (heap p) (nextTickQueue p)
                      (schedule (clock p + delay, callback) (timers p))
                      (clock p) (listenCalls p) (trace p) (exitCode p)).

(** A successful bind leaves the handle on the server and defers
    'listening'; a failed one leaves no handle and defers 'error'. *)
Definition handle_of (r : ListenResult) (port : Z) : option Z :=
  match r with ListenOk => Some port | ListenErr _ => None end.

Definition tick_of (r : ListenResult) (server : nat) : Tick :=
  match r with
  | ListenOk => emitListeningNT server
  | ListenErr code => emitErrorNT server code
  end.

(** Template literals print a port in decimal. *)
Definition decimal (port : Z) : string := pretty port.

Section Program.

(** The operating system: the answer to the n-th listen call of the run, on
    the given port. *)
Variable os : nat -> Z -> ListenResult.

(** server.listen(port, callback), net.Server.prototype.listen: a server
    that holds a handle throws ERR_SERVER_ALREADY_LISTEN; otherwise the
    callback is registered with once('listening'), the socket is bound, and
    the outcome is announced on the next tick. *)
Definition listen (server : nat) (port : Z) (callback : Closure) : JS unit :=
  fun p =>
    match heap p !! server with
    | None => (None, p)
    | Some srv =>
        match handle srv with
        | Some _ => throw "ERR_SERVER_ALREADY_LISTEN" p
        | None =>
            let r := os (listenCalls p) port in
            let srv' :=
              mkServer (requestListener srv) (handle_of r port)
                       (listeningOnce srv ++ [callback]) (errorListeners srv) in
            (Some tt,
             mkProcess (<[server := srv']> (heap p))
                       (nextTickQueue p ++ [tick_of r server])
                       (timers p) (clock p) (S (listenCalls p))
                       (Listen (requestListener srv) port r :: trace p) (exitCode p))
        end
    end.

(** app.listen(port, callback) of Express 4: a new http.Server around the
    application, then server.listen. *)
Definition app_listen (port : Z) (callback : Closure) : JS nat :=
  server ← createServer Primary;
  listen server port callback;;
  mret server.

(** startServer (lines 73-105) *)
Definition startServer (port retryCount : Z) : JS unit :=
  server ← app_listen port (startServer_listening port);
  on_error server (startServer_error port retryCount).

(** startHttpServerWithFallback (lines 143-160) *)
Definition startHttpServerWithFallback (server : nat) (port : Z) : JS unit :=
  listen server port (fallback_listening port);;
  on_error server (fallback_error server port).

(** startHttpFallback (lines 112-135) *)
Definition startHttpFallback : JS unit :=
  console_log "Initializing native HTTP server fallback...";;
  server ← createServer Fallback;
  startHttpServerWithFallback server DEFAULT_PORT.

Definition endpoints : JS unit :=
  console_log "Available endpoints:";;
  console_log ("  GET / - Returns " +:+ dq +:+ "Hello World!" +:+ dq);;
  console_log ("  GET /good-evening - Returns " +:+ dq +:+ "Good evening" +:+ dq).

Definition FATAL : string :=
  "Fatal error: Unable to start server on any available port".

Definition ATTEMPTING_FALLBACK : string :=
  "Attempting fallback to native HTTP server...".

(** Calling a function value; [code] is the code of the error object an
    'error' listener receives (the other closures take no argument).  Of the
    error object that console.error('Server error:', error) prints, the
    trace keeps the code. *)
Definition call (c : Closure) (code : string) : JS unit :=
  match c with
  | startServer_listening port =>
      console_log ("Express.js server running on port " +:+ decimal port);;
      endpoints
  | startServer_error port retryCount =>
      if String.eqb code EADDRINUSE then
        console_log ("Port " +:+ decimal port +:+ " is in use, attempting next port...");;
        if MAX_PORT <=? port then
          console_error ("All ports from " +:+ decimal DEFAULT_PORT +:+ " to "
                         +:+ decimal MAX_PORT +:+ " are in use.");;
          console_log ATTEMPTING_FALLBACK;;
          startHttpFallback
        else
          let delay := RETRY_DELAY * 2 ^ retryCount in
          setTimeout (startServer_timeout port retryCount) delay
      else
        console_error ("Server error: " +:+ code);;
        console_log ATTEMPTING_FALLBACK;;
        startHttpFallback
  | startServer_timeout port retryCount =>
      startServer (port + 1) (retryCount + 1)
  | fallback_listening port =>
      console_log ("HTTP fallback server running on port " +:+ decimal port);;
      endpoints
  | fallback_error server port =>
      if String.eqb code EADDRINUSE && (port <? MAX_PORT) then
        console_log ("Port " +:+ decimal port +:+ " is in use, trying port "
                     +:+ decimal (port + 1) +:+ "...");;
        startHttpServerWithFallback server (port + 1)
      else
        console_error FATAL;;
        process_exit 1
  end.

(** EventEmitter.emit calls the listeners registered when the event is
    emitted, in registration order; an exception or process.exit abandons
    the remaining ones. *)
Fixpoint call_all (listeners : list Closure) (code : string) : JS unit :=
  match listeners with
  | [] => mret tt
  | c :: rest => call c code;; call_all rest code
  end.

(** emit('error', err): with no listener the error is thrown. *)
Definition emit_error (server : nat) (code : string) : JS unit :=
  fun p =>
    match heap p !! server with
    | None => (None, p)
    | Some srv =>
        match errorListeners srv with
        | [] => throw code p
        | ls => call_all ls code p
        end
    end.

(** emit('listening'): the once-callbacks are removed and called. *)
Definition emit_listening (server : nat) : JS unit :=
  fun p =>
    match heap p !! server with
    | None => (None, p)
    | Some srv =>
        let srv' := mkServer (requestListener srv) (handle srv) [] (errorListeners srv) in
        call_all (listeningOnce srv) EmptyString
                 (mkProcess (<[server := srv']> (heap p)) (nextTickQueue p) (timers p)
                            (clock p) (listenCalls p) (trace p) (exitCode p))
    end.

Definition run_tick (t : Tick) : JS unit :=
  match t with
  | emitListeningNT server => emit_listening server
  | emitErrorNT server code => emit_error server code
  end.

(** One turn of the event loop: nothing once the process has exited;
    otherwise the oldest nextTick entry; with an empty queue, the timer that
    is due first, after waiting for it; with nothing pending the process
    idles (it serves requests if a server is bound). *)
Definition turn (p : Process) : Process :=
  match exitCode p with
  | Some _ => p
  | None =>
      match nextTickQueue p with
      | t :: q =>
          (run_tick t (mkProcess (heap p) q (timers p) (clock p) (listenCalls p)
                                 (trace p) (exitCode p))).2
      | [] =>
          match timers p with
          | (due, callback) :: ts =>
              (call callback EmptyString
                    (mkProcess (heap p) [] ts due (listenCalls p)
                               (Wait (due - clock p) :: trace p) (exitCode p))).2
          | [] => p
          end
      end
  end.

(** The script itself (lines 163-164). *)
Definition main : JS unit :=
  console_log "Starting Express.js web server...";;
  startServer DEFAULT_PORT 0.

Definition boot : Process := (main initial).2.

Fixpoint run (turns : nat) (p : Process) : Process :=
  match turns with
  | O => p
  | S n => run n (turn p)
  end.

Definition execute (turns : nat) : Process := run turns boot.

End Program.

(** ** Observations on a process *)

(** The events in the order they happened. *)
Definition history (p : Process) : list Event := rev (trace p).

Definition listens (es : list Event) : list (Strategy * Z) :=
  omap (fun e => match e with Listen s port _ => Some (s, port) | _ => None end) es.

Definition waits (es : list Event) : list Z :=
  omap (fun e => match e with Wait ms => Some ms | _ => None end) es.

(** The servers that hold a socket, as (strategy, port). *)
Definition bound (p : Process) : list (Strategy * Z) :=
  omap (fun srv => match handle srv with
                   | Some port => Some (requestListener srv, port)
                   | None => None
                   end) (heap p).

(** ** Vocabulary of the specification *)

(** What a switch to the Fallback strategy adds to the trace, after the
    lines [reason] that announce it. *)
Definition switch_trace (reason : list Event) (r : ListenResult) (t : list Event) :=
  Listen Fallback DEFAULT_PORT r
    :: ConsoleLog "Initializing native HTTP server fallback..."
    :: ConsoleLog ATTEMPTING_FALLBACK :: reason ++ t.

(** The process right after startHttpFallback returned: the fallback server
    is the newest of the heap, its first listen call has been answered. *)
Definition switched (os : nat -> Z -> ListenResult) (reason : list Event)
           (h : list Server) q ts c (n : nat) t e : Process :=
  mkProcess (h ++ [mkServer Fallback (handle_of (os n DEFAULT_PORT) DEFAULT_PORT)
                            [fallback_listening DEFAULT_PORT]
                            [fallback_error (length h) DEFAULT_PORT]])
            (q ++ [tick_of (os n DEFAULT_PORT) (length h)]) ts c (S n)
            (switch_trace reason (os n DEFAULT_PORT) t) e.

(** What a 'listening' callback prints, newest first. *)
Definition announce (banner : string) (t : list Event) : list Event :=
  ConsoleLog ("  GET /good-evening - Returns " +:+ dq +:+ "Good evening" +:+ dq)
    :: ConsoleLog ("  GET / - Returns " +:+ dq +:+ "Hello World!" +:+ dq)
    :: ConsoleLog "Available endpoints:" :: ConsoleLog banner :: t.

Definition in_range (port : Z) : Prop := DEFAULT_PORT <= port <= MAX_PORT.

Definition tick_server (t : Tick) : nat :=
  match t with emitListeningNT s | emitErrorNT s _ => s end.

(** A server made by startServer: one 'error' listener. *)
Definition primary_server (srv : Server) : Prop :=
  requestListener srv = Primary /\
  (exists port rc, in_range port /\ errorListeners srv = [startServer_error port rc]) /\
  Forall (fun c => exists port, c = startServer_listening port) (listeningOnce srv).

(** The server made by startHttpFallback, at index [i] of the heap: every
    call of startHttpServerWithFallback has added a listener to it. *)
Definition fallback_server (i : nat) (srv : Server) : Prop :=
  requestListener srv = Fallback /\
  errorListeners srv <> [] /\
  Forall (fun c => exists port, in_range port /\ c = fallback_error i port)
         (errorListeners srv) /\
  Forall (fun c => exists port, c = fallback_listening port) (listeningOnce srv).

Definition primary_event (e : Event) : Prop :=
  match e with Listen s port _ => s = Primary /\ in_range port | _ => True end.

Definition fallback_event (e : Event) : Prop :=
  match e with
  | Listen s port _ => s = Fallback /\ in_range port
  | Wait _ => False
  | _ => True
  end.

(** Under the Primary strategy at most one continuation is pending: one
    deferred event, or one retry timer. *)
Inductive pending_primary (n : nat) : list Tick -> list (Z * Closure) -> Prop :=
| pending_none : pending_primary n [] []
| pending_tick t : (tick_server t < n)%nat -> pending_primary n [t] []
| pending_timer due port rc :
    DEFAULT_PORT <= port < MAX_PORT ->
    pending_primary n [] [(due, startServer_timeout port rc)].

(** Once the fallback server exists (after the servers [h] of the Primary
    sweep), no timer is pending, every deferred event is its own, and
    everything that happened after [early] is Fallback business. *)
Definition fallback_phase (h : list Server) (early : list Event) (p : Process) : Prop :=
  exists f late,
    heap p = h ++ [f] /\ fallback_server (length h) f /\
    timers p = [] /\
    Forall (fun t => tick_server t = length h) (nextTickQueue p) /\
    trace p = late ++ early /\ Forall fallback_event late.

Inductive Inv (p : Process) : Prop :=
| Inv_primary :
    Forall primary_server (heap p) ->
    pending_primary (length (heap p)) (nextTickQueue p) (timers p) ->
    Forall primary_event (trace p) ->
    Inv p
| Inv_fallback h early :
    Forall primary_server h -> Forall primary_event early ->
    fallback_phase h early p ->
    Inv p.

Definition is_print (e : Event) : Prop :=
  match e with ConsoleLog _ | ConsoleError _ => True | _ => False end.

Definition is_listening (c : Closure) : Prop :=
  match c with startServer_listening _ | fallback_listening _ => True | _ => False end.

Definition port_of (k : nat) : Z := DEFAULT_PORT + Z.of_nat k.

(** The server of attempt [k], after startServer returned. *)
Definition primary_attempt (k : nat) (r : ListenResult) : Server :=
  mkServer Primary (handle_of r (port_of k)) [startServer_listening (port_of k)]
           [startServer_error (port_of k) (Z.of_nat k)].

Definition conflict : ListenResult := ListenErr EADDRINUSE.

Fixpoint failed_servers (k : nat) : list Server :=
  match k with
  | O => []
  | S j => failed_servers j ++ [primary_attempt j conflict]
  end.

(** What was observed (newest first) when attempts 0..k-1 have failed with a
    conflict and the k-th backoff has elapsed. *)
Fixpoint failed_trace (k : nat) : list Event :=
  match k with
  | O => [ConsoleLog "Starting Express.js web server..."]
  | S j =>
      Wait (RETRY_DELAY * 2 ^ Z.of_nat j)
        :: ConsoleLog ("Port " +:+ decimal (port_of j) +:+ " is in use, attempting next port...")
        :: Listen Primary (port_of j) conflict :: failed_trace j
  end.

Fixpoint elapsed (k : nat) : Z :=
  match k with
  | O => 0
  | S j => elapsed j + RETRY_DELAY * 2 ^ Z.of_nat j
  end.

(** The process right after the listen call of attempt [k], answered [r]. *)
Definition attempting (k : nat) (r : ListenResult) : Process :=
  mkProcess (failed_servers k ++ [primary_attempt k r]) [tick_of r k] []
            (elapsed k) (S k) (Listen Primary (port_of k) r :: failed_trace k) None.

(** The process serving on the port of attempt [k]. *)
Definition serving (k : nat) : Process :=
  mkProcess (failed_servers k
               ++ [mkServer Primary (Some (port_of k)) []
                            [startServer_error (port_of k) (Z.of_nat k)]])
            [] [] (elapsed k) (S k)
            (announce ("Express.js server running on port " +:+ decimal (port_of k))
                      (Listen Primary (port_of k) ListenOk :: failed_trace k))
            None.

(** A function value is safe when the port it may bind next is in range. *)
Definition closure_safe (c : Closure) : Prop :=
  match c with
  | startServer_timeout port _ => in_range (port + 1)
  | fallback_error _ port => port < MAX_PORT -> in_range (port + 1)
  | _ => True
  end.

Definition heap_safe (p : Process) : Prop :=
  Forall (fun srv => Forall closure_safe (listeningOnce srv)
                     /\ Forall closure_safe (errorListeners srv)) (heap p) /\
  Forall (fun t => closure_safe t.2) (timers p).

(** The changes of strategy along a list of bind attempts. *)
Fixpoint switches (l : list Strategy) : list (Strategy * Strategy) :=
  match l with
  | [] => []
  | a :: rest =>
      match rest with
      | [] => []
      | b :: _ => if decide (a = b) then switches rest else (a, b) :: switches rest
      end
  end.

(** Every port occupied, for the whole run. *)
Definition all_busy : nat -> Z -> ListenResult := fun _ _ => conflict.

(** The console.error line printed right before process.exit. *)
Definition fatal_diagnostic (p : Process) : option string :=
  match trace p with
  | ProcessExit _ :: ConsoleError line :: _ => Some line
  | _ => None
  end.

Definition mentions (needle line : string) : bool :=
  match String.index 0 needle line with Some _ => true | None => false end.

(** A line identifies the port range when it shows both of its bounds. *)
Definition names_range (line : string) : bool :=
  mentions (decimal DEFAULT_PORT) line && mentions (decimal MAX_PORT) line.

Definition RANGE_IN_USE : string :=
  "All ports from " +:+ decimal DEFAULT_PORT +:+ " to " +:+ decimal MAX_PORT
  +:+ " are in use.".

(** The process exits with status 1 and its fatal diagnostic identifies the
    port range. *)
Definition exits_naming_range (p : Process) : Prop :=
  exitCode p = Some 1 /\
  exists line, fatal_diagnostic p = Some line /\ names_range line = true.

(** The first listen call fails with a permission error; later calls succeed. *)
Definition first_denied : nat -> Z -> ListenResult :=
  fun n _ => match n with O => ListenErr "EACCES" | S _ => ListenOk end.

Definition printed_error (line : string) (p : Process) : bool :=
  existsb (fun e => match e with ConsoleError l => String.eqb l line | _ => false end)
          (trace p).

(** The console lines of a history that identify the port range. *)
Definition range_lines (h : list Event) : list Event :=
  List.filter (fun e => match e with
                        | ConsoleLog line | ConsoleError line => names_range line
                        | _ => false
                        end) h.

(** How often the process has called listen on [port] through strategy [s]. *)
Definition attempts_of (s : Strategy) (port : Z) (p : Process) : nat :=
  length (filter (fun x => x = (s, port)) (listens (history p))).

(** Ports below [p] occupied, the others free. *)
Definition busy_below (p : Z) : nat -> Z -> ListenResult :=
  fun _ q => if q <? p then conflict else ListenOk.

(** Conflicts throughout the Primary sweep (listen calls 0..10), then a
    permission error. *)
Definition denied_after_sweep : nat -> Z -> ListenResult :=
  fun n _ => if (n <? 11)%nat then conflict else ListenErr "EACCES".

(** A permission error on the first listen call, then [busy_below]. *)
Definition denied_then_busy_below (p : Z) : nat -> Z -> ListenResult :=
  fun n q => match n with O => ListenErr "EACCES" | S _ => busy_below p n q end.

(** Conflicts on the listen calls 0..k-1, a permission error on call [k],
    success afterwards. *)
Definition denied_at (k : nat) : nat -> Z -> ListenResult :=
  fun n _ => if (n <? k)%nat then conflict
             else if (n =? k)%nat then ListenErr "EACCES" else ListenOk.

(** ** Vocabulary of the run invariants *)

(** The backoff before attempt [k+1] (line 95). *)
Definition delay (k : nat) : Z := RETRY_DELAY * 2 ^ Z.of_nat k.

(** The bind attempts and the waits of a trace, without the console. *)
Inductive Mark :=
| Tried (s : Strategy) (port : Z)
| Waited (ms : Z).

Definition mark (e : Event) : option Mark :=
  match e with
  | Listen s port _ => Some (Tried s port)
  | Wait ms => Some (Waited ms)
  | _ => None
  end.

Definition marks (t : list Event) : list Mark := omap mark t.

(** The marks, newest first, of a Primary sweep that has reached attempt [k]. *)
Fixpoint primary_marks (k : nat) : list Mark :=
  match k with
  | O => [Tried Primary (port_of 0)]
  | S j => Tried Primary (port_of (S j)) :: Waited (delay j) :: primary_marks j
  end.

Definition answers (t : list Event) : list (Strategy * Z * ListenResult) :=
  omap (fun e => match e with Listen s port r => Some (s, port, r) | _ => None end) t.

(** The most recent listen call of a trace (newest first) and its answer. *)
Definition last_listen (t : list Event) : option (Strategy * Z * ListenResult) :=
  head (answers t).

(** The socket a process holds after that call. *)
Definition bound_of (l : option (Strategy * Z * ListenResult)) : list (Strategy * Z) :=
  match l with
  | Some (s, port, ListenOk) => [(s, port)]
  | _ => []
  end.

Definition held (l : option (Strategy * Z * ListenResult)) : option Z :=
  match l with
  | Some (_, port, ListenOk) => Some port
  | _ => None
  end.

(** The socket a server holds. *)
Definition socket (srv : Server) : option (Strategy * Z) :=
  match handle srv with
  | Some port => Some (requestListener srv, port)
  | None => None
  end.

(** The Fallback part of a run, after the servers [h] and the events [early]
    of the Primary sweep, at time [c]: the fallback server has one 'error'
    listener per listen call made on it, and holds the socket of the last
    call if that call succeeded. *)
Definition fallback_sweep (h : list Server) (early : list Event) (c : Z)
           (p : Process) : Prop :=
  exists f late,
    heap p = h ++ [f] /\ requestListener f = Fallback /\
    trace p = late ++ early /\ Forall fallback_event late /\
    length (errorListeners f) = length (answers late) /\
    answers late <> [] /\
    handle f = held (last_listen late) /\
    clock p = c /\
    (exitCode p = None \/ exitCode p = Some 1).

(** What every reachable process satisfies, beyond [Inv]. *)
Inductive Sweep (p : Process) : Prop :=
| Sweep_primary k :
    (k <= 10)%nat ->
    Forall (fun srv => requestListener srv = Primary) (heap p) ->
    exitCode p = None ->
    clock p = elapsed k ->
    marks (trace p) = primary_marks k ->
    bound p = bound_of (last_listen (trace p)) ->
    (forall s code, In (emitErrorNT s code) (nextTickQueue p) ->
       bound p = [] /\
       exists srv, heap p !! s = Some srv /\
                   errorListeners srv = [startServer_error (port_of k) (Z.of_nat k)]) ->
    (forall due c, In (due, c) (timers p) ->
       bound p = [] /\ due = clock p + delay k /\
       c = startServer_timeout (port_of k) (Z.of_nat k)) ->
    Sweep p
| Sweep_fallback k h early :
    (k <= 10)%nat ->
    Forall (fun srv => handle srv = None) h ->
    marks early = primary_marks k ->
    fallback_sweep h early (elapsed k) p ->
    Sweep p.

Fixpoint total (l : list Z) : Z :=
  match l with
  | [] => 0
  | x :: rest => x + total rest
  end.

(** Conflicts throughout the Primary sweep (listen calls 0..10); from then
    on the ports below [p] are occupied and the others free. *)
Definition freed_after_sweep (p : Z) : nat -> Z -> ListenResult :=
  fun n q => if (n <? 11)%nat then conflict else busy_below p n q.

Definition printed_log (line : string) (p : Process) : bool :=
  existsb (fun e => match e with ConsoleLog l => String.eqb l line | _ => false end)
          (trace p).

Definition tried (m : Mark) : option (Strategy * Z) :=
  match m with Tried s port => Some (s, port) | Waited _ => None end.

Definition waited (m : Mark) : option Z :=
  match m with Waited ms => Some ms | Tried _ _ => None end.

(** How many listen calls a trace records for strategy [s]. *)
Fixpoint tries (s : Strategy) (ms : list Mark) : nat :=
  match ms with
  | [] => O
  | Tried s' _ :: rest => if decide (s' = s) then S (tries s rest) else tries s rest
  | Waited _ :: rest => tries s rest
  end.

Definition tries_of (s : Strategy) (p : Process) : nat := tries s (marks (trace p)).

(** ** Vocabulary of termination *)

Definition is_error_tick (i : nat) (t : Tick) : Prop :=
  exists code, t = emitErrorNT i code.

Definition fallback_listener (i : nat) (c : Closure) : Prop :=
  exists port, in_range port /\ c = fallback_error i port.

(** The deferred events of the fallback server (at index [i]): 'error'
    events, followed by 'listening' exactly when the server holds a socket. *)
Definition queue_shape (i : nat) (f : Server) (errs tail : list Tick) : Prop :=
  Forall (is_error_tick i) errs /\
  ((tail = [] /\ handle f = None) \/
   (tail = [emitListeningNT i] /\ exists port, handle f = Some port)).

(** The Fallback sweep, still running after [j] dispatched 'error' events. *)
Definition fallback_running (j : nat) (h : list Server) (p : Process) : Prop :=
  exitCode p = None /\ timers p = [] /\
  exists f errs tail,
    heap p = h ++ [f] /\ requestListener f = Fallback /\
    nextTickQueue p = errs ++ tail /\ nextTickQueue p <> [] /\
    queue_shape (length h) f errs tail /\
    (forall port, (j <= 1)%nat -> handle f = Some port -> port = 3000 + Z.of_nat j) /\
    Forall (fallback_listener (length h)) (errorListeners f) /\
    Forall is_listening (listeningOnce f) /\
    (exists port, 3000 + Z.of_nat j <= port /\
                  In (fallback_error (length h) port) (errorListeners f)) /\
    (j < length (errorListeners f))%nat /\
    (j = 0%nat -> errorListeners f = [fallback_error (length h) DEFAULT_PORT]) /\
    ((2 <= j)%nat -> errs <> []).

(** The Fallback sweep is over: the process has exited, or it serves on port
    3000 or 3001 with nothing pending. *)
Definition fallback_finished (h : list Server) (p : Process) : Prop :=
  exitCode p = Some 1 \/
  (exitCode p = None /\ nextTickQueue p = [] /\ timers p = [] /\
   exists f port, heap p = h ++ [f] /\ requestListener f = Fallback /\
                  Forall (fun srv => handle srv = None) h /\
                  handle f = Some port /\ (port = 3000 \/ port = 3001)).

(** What one dispatched 'error' event leaves behind when every listener in
    [ls] ran to its end on the fallback server [f] (at index [i]). *)
Definition emitted (i : nat) (ls : list Closure) (f f' : Server)
           (q q' : list Tick) : Prop :=
  exists added once errs tail,
    errorListeners f' = errorListeners f ++ added /\
    listeningOnce f' = listeningOnce f ++ once /\
    requestListener f' = requestListener f /\
    Forall is_listening once /\
    Forall (fallback_listener i) added /\
    length added = length ls /\
    (forall port, In (fallback_error i port) ls -> In (fallback_error i (port + 1)) added) /\
    q' = q ++ errs ++ tail /\
    length (errs ++ tail) = length ls /\
    queue_shape i f' errs tail /\
    (forall port, handle f' = Some port ->
       exists port0, last ls = Some (fallback_error i port0) /\ port = port0 + 1).

End Acquisition.

Module Responder.

(** What express.json() hands to next(err) when it rejects a request: the
    status of the error (400 for a body that is not JSON, 413 for a body
    that is too large, 415 for an unsupported charset or encoding) and its
    stack. *)
Record Failure := mkFailure {
  status : Z;
  stack : string
}.

(** What the handlers and the framework read of an incoming request, once
    Node's http parser has delivered it in a 'request' event: req.method,
    req.url (the request target as sent, query string included), and two
    things that depend on its headers and its body.  [jsonFailure] is the
    error express.json() finds, None when it calls next() without one (no
    body, another media type, or JSON that parses).  [fresh data] is
    fresh(req.headers, { etag }) of the fresh package for the ETag res.send
    computes for [data]: whether the conditional headers of the request
    (If-None-Match, If-Modified-Since, Cache-Control: no-cache) make a
    response with that data a fresh one. *)
Record Request := mkIncoming {
  method : string;
  url : string;
  jsonFailure : option Failure;
  fresh : string -> bool
}.

(** A request without a body and without conditional headers. *)
Definition mkRequest (m u : string) : Request :=
  mkIncoming m u None (fun _ => false).

(** The same request, sent to another target. *)
Definition with_url (req : Request) (u : string) : Request :=
  mkIncoming (method req) u (jsonFailure req) (fresh req).

(** GET / with the header If-None-Match: * (fresh for every ETag). *)
Definition revalidating_get : Request :=
  mkIncoming "GET" "/" None (fun _ => true).

(** GET / with Content-Type: application/json and a body that is not JSON:
    express.json() passes on a SyntaxError of status 400. *)
Definition malformed_json_get (trace : string) : Request :=
  mkIncoming "GET" "/" (Some (mkFailure 400 trace)) (fun _ => false).

(** What a handler writes: the status code, the Content-Type header
    (EmptyString when the response has none) and the data handed to
    res.end. *)
Record Response := mkResponse {
  statusCode : Z;
  contentType : string;
  body : string
}.

(** A request listener prints console lines and writes one response;
    [timestamp] is the value of new Date().toISOString() at that moment. *)
Definition Listener : Type := string -> Request -> list string * Response.

(** The request listener of startHttpFallback (server.js lines 115-131). *)
Definition fallbackListener : Listener :=
  fun timestamp req =>
    (["[" +:+ timestamp +:+ "] " +:+ method req +:+ " " +:+ url req +:+ " (HTTP Fallback)"],
     if String.eqb (method req) "GET" && String.eqb (url req) "/" then
       mkResponse 200 "text/plain" "Hello World!"
     else if String.eqb (method req) "GET" && String.eqb (url req) "/good-evening" then
       mkResponse 200 "text/plain" "Good evening"
     else
       mkResponse 404 "text/plain" "Not Found").

(** ** Express 4

    The part of the framework that app.use, app.get, express.json, res.send,
    an unmatched request and a failed request go through, after Express
    4.21 (lib/router/index.js, lib/router/route.js, lib/request.js,
    lib/response.js, lib/application.js), body-parser and finalhandler, with
    NODE_ENV not set.  The framework is not part of the repository; this is
    its behaviour for request targets in origin form whose path needs no
    percent-encoding. *)
Module Express.

(** A handler passes the request on with next(), passes an error on with
    next(err), or ends the response. *)
Inductive Outcome :=
| next
| failed (e : Failure)
| sent (r : Response).

Definition Handler : Type := string -> Request -> list string * Outcome.

(** A layer of the router stack: app.use(handler), which sees every request,
    or app.get(path, handler). *)
Inductive Layer :=
| use (h : Handler)
| get (path : string) (h : Handler).

Definition HTML : string := "text/html; charset=utf-8".

(** req.fresh while the status is 200: only a GET or a HEAD request is
    revalidated. *)
Definition req_fresh (req : Request) (data : string) : bool :=
  (String.eqb (method req) "GET" || String.eqb (method req) "HEAD") && fresh req data.

(** res.send(string): status 200 unless set and Content-Type text/html
    unless set; a fresh request is answered 304, without Content-Type and
    without data; a HEAD request gets no data. *)
Definition send (data : string) : Handler :=
  fun _ req =>
    ([], sent (if req_fresh req data then
                 mkResponse 304 EmptyString EmptyString
               else
                 mkResponse 200 HTML
                   (if String.eqb (method req) "HEAD" then EmptyString else data))).

Definition lower (c : ascii) : ascii :=
  let n := nat_of_ascii c in
  if (65 <=? n)%nat && (n <=? 90)%nat then ascii_of_nat (n + 32) else c.

Fixpoint toLowerCase (s : string) : string :=
  match s with
  | EmptyString => EmptyString
  | String c rest => String (lower c) (toLowerCase rest)
  end.

(** parseurl(req).pathname: the target up to the query string. *)
Fixpoint pathname (target : string) : string :=
  match target with
  | EmptyString => EmptyString
  | String c rest => if Ascii.eqb c "?" then EmptyString else String c (pathname rest)
  end.

Fixpoint strip_slash (s : string) : string :=
  match s with
  | EmptyString => EmptyString
  | String c EmptyString => if Ascii.eqb c "/" then EmptyString else s
  | String c rest => String c (strip_slash rest)
  end.

(** Route matching with the default options (case insensitive, not strict):
    the route path, with or without one trailing slash. *)
Definition matches (route path : string) : bool :=
  String.eqb (toLowerCase (strip_slash path)) (toLowerCase (strip_slash route)).

(** Route.prototype._handles_method for a route made by app.get: GET, and
    HEAD in its place. *)
Definition handles_method (m : string) : bool :=
  String.eqb (toLowerCase m) "get" || String.eqb (toLowerCase m) "head".

Definition nl : string := String "010"%char EmptyString.

(** escape-html. *)
Fixpoint escapeHtml (s : string) : string :=
  match s with
  | EmptyString => EmptyString
  | String c rest =>
      (if Ascii.eqb c "&" then "&amp;"
       else if Ascii.eqb c "<" then "&lt;"
       else if Ascii.eqb c ">" then "&gt;"
       else if Ascii.eqb c "'" then "&#39;"
       else if Ascii.eqb c "034" then "&quot;"
       else String c EmptyString) +:+ escapeHtml rest
  end.

(** replace(/\n/g, '<br>'). *)
Fixpoint breaks (s : string) : string :=
  match s with
  | EmptyString => EmptyString
  | String c rest =>
      if Ascii.eqb c "010" then "<br>" +:+ breaks rest else String c (breaks rest)
  end.

(** replace(/\x20{2}/g, ' &nbsp;'). *)
Fixpoint spaces (s : string) : string :=
  match s with
  | EmptyString => EmptyString
  | String c rest =>
      match rest with
      | String c' rest' =>
          if Ascii.eqb c " " && Ascii.eqb c' " " then " &nbsp;" +:+ spaces rest'
          else String c (spaces rest)
      | EmptyString => s
      end
  end.

(** The page finalhandler writes around a message. *)
Definition createHtmlDocument (message : string) : string :=
  "<!DOCTYPE html>" +:+ nl +:+ "<html lang=" +:+ dq +:+ "en" +:+ dq +:+ ">" +:+ nl
  +:+ "<head>" +:+ nl +:+ "<meta charset=" +:+ dq +:+ "utf-8" +:+ dq +:+ ">" +:+ nl
  +:+ "<title>Error</title>" +:+ nl +:+ "</head>" +:+ nl +:+ "<body>" +:+ nl
  +:+ "<pre>" +:+ spaces (breaks (escapeHtml message)) +:+ "</pre>" +:+ nl
  +:+ "</body>" +:+ nl +:+ "</html>" +:+ nl.

(** finalhandler without an error: 404 and an HTML page. *)
Definition finalhandler (req : Request) : Response :=
  mkResponse 404 HTML
    (if String.eqb (method req) "HEAD" then EmptyString else
       createHtmlDocument ("Cannot " +:+ method req +:+ " " +:+ pathname (url req))).

(** The status finalhandler gives to an error: its own when that is an
    error status, and 500 otherwise. *)
Definition getErrorStatusCode (e : Failure) : Z :=
  if (400 <=? status e) && (status e <? 600) then status e else 500.

(** finalhandler with an error: that status, and the stack as the page. *)
Definition finalhandler_error (e : Failure) (req : Request) : Response :=
  mkResponse (getErrorStatusCode e) HTML
    (if String.eqb (method req) "HEAD" then EmptyString else createHtmlDocument (stack e)).

(** An error no handler took care of: the application prints its stack on
    console.error (logerror) and finalhandler answers. *)
Definition done_error (e : Failure) (req : Request) : list string * Response :=
  ([stack e], finalhandler_error e req).

(** The automatic answer to OPTIONS on a path that has routes. *)
Definition sendOptionsResponse (options : list string) : Response :=
  mkResponse 200 HTML (String.concat "," options).

(** Router.handle: the layers in order; a route whose path matches but whose
    method does not only contributes to the OPTIONS answer; after next(err)
    the remaining layers, none of which handles errors, are skipped. *)
Fixpoint handle (stack : list Layer) (options : list string)
         (timestamp : string) (req : Request) : list string * Response :=
  match stack with
  | [] =>
      ([], if String.eqb (method req) "OPTIONS" && negb (bool_decide (options = []))
           then sendOptionsResponse options
           else finalhandler req)
  | use h :: rest =>
      match h timestamp req with
      | (out, sent r) => (out, r)
      | (out, failed e) => let (out', r) := done_error e req in (out ++ out', r)
      | (out, next) =>
          let (out', r) := handle rest options timestamp req in (out ++ out', r)
      end
  | get path h :: rest =>
      if matches path (pathname (url req)) then
        if handles_method (method req) then
          match h timestamp req with
          | (out, sent r) => (out, r)
          | (out, failed e) => let (out', r) := done_error e req in (out ++ out', r)
          | (out, next) =>
              let (out', r) := handle rest options timestamp req in (out ++ out', r)
          end
        else
          handle rest
                 (if String.eqb (method req) "OPTIONS"
                  then list_union options ["GET"; "HEAD"] else options)
                 timestamp req
      else handle rest options timestamp req
  end.

End Express.

(** The request logging middleware (server.js lines 32-36). *)
Definition logger : Express.Handler :=
  fun timestamp req =>
    (["[" +:+ timestamp +:+ "] " +:+ method req +:+ " " +:+ url req], Express.next).

(** express.json() (line 42): a request whose body it accepts, or that has
    none, is passed on; the error it finds is passed on in its place. *)
Definition express_json : Express.Handler :=
  fun _ req =>
    ([], match jsonFailure req with
         | Some e => Express.failed e
         | None => Express.next
         end).

(** The application (lines 32-64). *)
Definition app : list Express.Layer :=
  [ Express.use logger;
    Express.use express_json;
    Express.get "/" (Express.send "Hello World!");
    Express.get "/good-evening" (Express.send "Good evening") ].

Definition appListener : Listener := Express.handle app [].

(** The request listener behind each strategy. *)
Definition listener (s : Strategy) : Listener :=
  match s with
  | Primary => appListener
  | Fallback => fallbackListener
  end.

(** A server that receives the requests one after the other, each one
    answered before the next arrives; the console output accumulates. *)
Fixpoint serve (l : Listener) (arrivals : list (string * Request))
  : list string * list Response :=
  match arrivals with
  | [] => ([], [])
  | (timestamp, req) :: rest =>
      let (out, r) := l timestamp req in
      let (out', rs) := serve l rest in
      (out ++ out', r :: rs)
  end.

(** The response to [req], arriving at [timestamp] after [prior]. *)
Definition response_after (l : Listener) (prior : list (string * Request))
           (timestamp : string) (req : Request) : option Response :=
  last (serve l (prior ++ [(timestamp, req)])).2.

(** The console line a listener prints for a request. *)
Definition log_line (s : Strategy) (timestamp : string) (req : Request) : string :=
  match s with
  | Primary => "[" +:+ timestamp +:+ "] " +:+ method req +:+ " " +:+ url req
  | Fallback =>
      "[" +:+ timestamp +:+ "] " +:+ method req +:+ " " +:+ url req +:+ " (HTTP Fallback)"
  end.

(** What a request leaves on the console: its line, and under the Express
    application the stack of the error express.json() found in it. *)
Definition console_of (s : Strategy) (timestamp : string) (req : Request) : list string :=
  log_line s timestamp req
    :: match s, jsonFailure req with
       | Primary, Some e => [stack e]
       | _, _ => []
       end.

End Responder.

Module AcquisitionFacts.
Import Acquisition.

Section Specs.

Variable os : nat -> Z -> ListenResult.

(** The monad laws the proofs compute with. *)
Lemma bind_some {A B} (m : JS A) (k : A -> JS B) p a p' :
  m p = (Some a, p') -> (m ≫= k) p = k a p'.
Proof. intros E. unfold mbind, JS_bind. now rewrite E. Qed.

Lemma bind_none {A B} (m : JS A) (k : A -> JS B) p p' :
  m p = (None, p') -> (m ≫= k) p = (None, p').
Proof. intros E. unfold mbind, JS_bind. now rewrite E. Qed.

(** listen and on('error') on the newest server of the heap. *)
Lemma listen_newest h srv q ts c n t e port cb :
  handle srv = None ->
  listen os (length h) port cb (mkProcess (h ++ [srv]) q ts c n t e) =
  (Some tt,
   mkProcess (h ++ [mkServer (requestListener srv) (handle_of (os n port) port)
                             (listeningOnce srv ++ [cb]) (errorListeners srv)])
             (q ++ [tick_of (os n port) (length h)]) ts c (S n)
             (Listen (requestListener srv) port (os n port) :: t) e).
Proof.
  intros Hh. unfold listen. cbn [heap].
  rewrite list_lookup_middle by reflexivity. rewrite Hh. cbn.
  rewrite insert_app_r_alt by lia. rewrite Nat.sub_diag. reflexivity.
Qed.

Lemma listen_bound h srv q ts c n t e port cb port0 :
  handle srv = Some port0 ->
  listen os (length h) port cb (mkProcess (h ++ [srv]) q ts c n t e) =
  throw "ERR_SERVER_ALREADY_LISTEN" (mkProcess (h ++ [srv]) q ts c n t e).
Proof.
  intros Hh. unfold listen. cbn [heap].
  rewrite list_lookup_middle by reflexivity. now rewrite Hh.
Qed.

Lemma on_error_newest h srv q ts c n t e l :
  on_error (length h) l (mkProcess (h ++ [srv]) q ts c n t e) =
  (Some tt,
   mkProcess (h ++ [mkServer (requestListener srv) (handle srv) (listeningOnce srv)
                             (errorListeners srv ++ [l])])
             q ts c n t e).
Proof.
  unfold on_error. cbn [heap].
  rewrite list_lookup_middle by reflexivity. cbn.
  rewrite insert_app_r_alt by lia. rewrite Nat.sub_diag. reflexivity.
Qed.

(** startServer allocates a server, binds it and registers its single
    'error' listener. *)
Lemma startServer_spec port rc h q ts c n t e :
  startServer os port rc (mkProcess h q ts c n t e) =
  (Some tt,
   mkProcess (h ++ [mkServer Primary (handle_of (os n port) port)
                             [startServer_listening port]
                             [startServer_error port rc]])
             (q ++ [tick_of (os n port) (length h)]) ts c (S n)
             (Listen Primary port (os n port) :: t) e).
Proof.
  unfold startServer, app_listen.
  erewrite bind_some; [|erewrite bind_some; [|reflexivity]; cbn [heap];
    erewrite bind_some; [reflexivity|]; now apply listen_newest].
  now rewrite on_error_newest.
Qed.

(** startHttpServerWithFallback on the newest server: with a handle the
    listen call throws; without one the port is tried and one more 'error'
    listener is added to the same server. *)
Lemma startHttpServerWithFallback_spec h f q ts c n t e port :
  startHttpServerWithFallback os (length h) port (mkProcess (h ++ [f]) q ts c n t e) =
  match handle f with
  | Some _ => throw "ERR_SERVER_ALREADY_LISTEN" (mkProcess (h ++ [f]) q ts c n t e)
  | None =>
      (Some tt,
       mkProcess (h ++ [mkServer (requestListener f) (handle_of (os n port) port)
                                 (listeningOnce f ++ [fallback_listening port])
                                 (errorListeners f ++ [fallback_error (length h) port])])
                 (q ++ [tick_of (os n port) (length h)]) ts c (S n)
                 (Listen (requestListener f) port (os n port) :: t) e)
  end.
Proof.
  unfold startHttpServerWithFallback. destruct (handle f) eqn:Hh.
  - erewrite bind_none; [reflexivity|]. erewrite listen_bound by eassumption. reflexivity.
  - erewrite bind_some; [|now apply listen_newest]. now rewrite on_error_newest.
Qed.

Lemma startHttpFallback_spec h q ts c n t e :
  startHttpFallback os (mkProcess h q ts c n t e) =
  (Some tt,
   mkProcess (h ++ [mkServer Fallback (handle_of (os n DEFAULT_PORT) DEFAULT_PORT)
                             [fallback_listening DEFAULT_PORT]
                             [fallback_error (length h) DEFAULT_PORT]])
             (q ++ [tick_of (os n DEFAULT_PORT) (length h)]) ts c (S n)
             (Listen Fallback DEFAULT_PORT (os n DEFAULT_PORT)
                :: ConsoleLog "Initializing native HTTP server fallback..." :: t) e).
Proof.
  unfold startHttpFallback.
  erewrite bind_some; [|reflexivity].
  erewrite bind_some; [|reflexivity]. cbn [heap record trace nextTickQueue timers clock listenCalls exitCode].
  now rewrite startHttpServerWithFallback_spec.
Qed.

(** The 'error' listener of startServer, branch by branch. *)
Lemma startServer_error_retry port rc h q ts c n t e :
  port < MAX_PORT ->
  call os (startServer_error port rc) EADDRINUSE (mkProcess h q ts c n t e) =
  (Some tt,
   mkProcess h q (schedule (c + RETRY_DELAY * 2 ^ rc, startServer_timeout port rc) ts)
             c n
             (ConsoleLog ("Port " +:+ decimal port +:+ " is in use, attempting next port...")
                :: t) e).
Proof.
  intros Hlt. unfold call. change (String.eqb EADDRINUSE EADDRINUSE) with true. cbv iota.
  replace (MAX_PORT <=? port) with false by (symmetry; apply Z.leb_gt; lia).
  reflexivity.
Qed.

Lemma startServer_error_exhausted port rc h q ts c n t e :
  MAX_PORT <= port ->
  call os (startServer_error port rc) EADDRINUSE (mkProcess h q ts c n t e) =
  (Some tt,
   switched os [ConsoleError ("All ports from " +:+ decimal DEFAULT_PORT +:+ " to "
                           +:+ decimal MAX_PORT +:+ " are in use.");
             ConsoleLog ("Port " +:+ decimal port +:+ " is in use, attempting next port...")]
            h q ts c n t e).
Proof.
  intros Hge. unfold call. change (String.eqb EADDRINUSE EADDRINUSE) with true. cbv iota.
  replace (MAX_PORT <=? port) with true by (symmetry; apply Z.leb_le; lia).
  do 3 (erewrite bind_some; [|reflexivity]).
  unfold record. cbn [heap nextTickQueue timers clock listenCalls trace exitCode].
  now rewrite startHttpFallback_spec.
Qed.

Lemma startServer_error_other code port rc h q ts c n t e :
  code <> EADDRINUSE ->
  call os (startServer_error port rc) code (mkProcess h q ts c n t e) =
  (Some tt, switched os [ConsoleError ("Server error: " +:+ code)] h q ts c n t e).
Proof.
  intros Hne. unfold call.
  replace (String.eqb code EADDRINUSE) with false
    by (symmetry; now apply String.eqb_neq).
  do 2 (erewrite bind_some; [|reflexivity]).
  unfold record. cbn [heap nextTickQueue timers clock listenCalls trace exitCode].
  now rewrite startHttpFallback_spec.
Qed.

Lemma startServer_timeout_spec port rc h q ts c n t e :
  call os (startServer_timeout port rc) EmptyString (mkProcess h q ts c n t e) =
  startServer os (port + 1) (rc + 1) (mkProcess h q ts c n t e).
Proof. reflexivity. Qed.

(** The 'error' listener of startHttpServerWithFallback. *)
Lemma fallback_error_next server port h q ts c n t e :
  port < MAX_PORT ->
  call os (fallback_error server port) EADDRINUSE (mkProcess h q ts c n t e) =
  startHttpServerWithFallback os server (port + 1)
    (mkProcess h q ts c n
       (ConsoleLog ("Port " +:+ decimal port +:+ " is in use, trying port "
                    +:+ decimal (port + 1) +:+ "...") :: t) e).
Proof.
  intros Hlt. unfold call. change (String.eqb EADDRINUSE EADDRINUSE) with true.
  replace (port <? MAX_PORT) with true by (symmetry; apply Z.ltb_lt; lia).
  reflexivity.
Qed.

Lemma fallback_error_fatal server port code h q ts c n t e :
  code <> EADDRINUSE \/ MAX_PORT <= port ->
  call os (fallback_error server port) code (mkProcess h q ts c n t e) =
  (None, mkProcess h q ts c n (ProcessExit 1 :: ConsoleError FATAL :: t) (Some 1)).
Proof.
  intros Hc. unfold call.
  replace (String.eqb code EADDRINUSE && (port <? MAX_PORT)) with false; [reflexivity|].
  symmetry. apply andb_false_iff. destruct Hc as [Hc|Hc].
  - left. now apply String.eqb_neq.
  - right. apply Z.ltb_ge. lia.
Qed.

Lemma startServer_listening_spec port code h q ts c n t e :
  call os (startServer_listening port) code (mkProcess h q ts c n t e) =
  (Some tt, mkProcess h q ts c n
              (announce ("Express.js server running on port " +:+ decimal port) t) e).
Proof. reflexivity. Qed.

Lemma fallback_listening_spec port code h q ts c n t e :
  call os (fallback_listening port) code (mkProcess h q ts c n t e) =
  (Some tt, mkProcess h q ts c n
              (announce ("HTTP fallback server running on port " +:+ decimal port) t) e).
Proof. reflexivity. Qed.

End Specs.

(** ** The invariant of the acquisition state machine *)

(** Goals [Forall P [e1; ...; en]] and [Forall P (e1 :: ... :: t)] over a
    known prefix. *)
Ltac each_event :=
  repeat match goal with
  | |- Forall _ [] => apply List.Forall_nil
  | |- Forall _ (_ :: _) => apply List.Forall_cons; [cbn; auto|]
  | |- Forall _ (_ ++ _) => apply Forall_app; split
  end; try assumption.

Section Invariant.

Variable os : nat -> Z -> ListenResult.

Lemma in_range_default : in_range DEFAULT_PORT.
Proof. unfold in_range, DEFAULT_PORT, MAX_PORT. lia. Qed.
Hint Resolve in_range_default : core.

Lemma Inv_boot : Inv (boot os).
Proof.
  unfold boot, main, initial.
  erewrite bind_some; [|reflexivity]. unfold record. cbn [heap nextTickQueue timers clock listenCalls trace exitCode].
  rewrite startServer_spec. cbn [snd].
  apply Inv_primary; cbn [heap nextTickQueue timers trace].
  - apply Forall_app. split; [constructor|]. constructor; [|constructor].
    split; [reflexivity|]. split.
    + exists DEFAULT_PORT, 0. split; [apply in_range_default|reflexivity].
    + constructor; [now eexists|constructor].
  - apply pending_tick. destruct (os 0%nat DEFAULT_PORT); cbn; lia.
  - each_event.
Qed.

(** Entering the Fallback strategy from a process in its Primary sweep. *)
Lemma switched_phase reason h q ts c n t e :
  q = [] -> ts = [] ->
  fallback_phase h (ConsoleLog "Initializing native HTTP server fallback..."
                      :: ConsoleLog ATTEMPTING_FALLBACK :: reason ++ t)
                 (switched os reason h q ts c n t e).
Proof.
  intros -> ->. unfold switched, switch_trace.
  eexists _, [_]. cbn [heap nextTickQueue timers trace].
  split; [reflexivity|]. split; [|split; [reflexivity|split; [|split; [reflexivity|]]]].
  - split; [reflexivity|]. cbn [errorListeners listeningOnce]. split; [discriminate|].
    split; each_event; eauto.
  - each_event. now destruct (os n DEFAULT_PORT).
  - each_event.
Qed.

(** One listener of the fallback server keeps the Fallback phase, whether
    it tries the next port, throws or exits. *)
Lemma fallback_error_phase h early port code p :
  in_range port ->
  fallback_phase h early p ->
  fallback_phase h early (call os (fallback_error (length h) port) code p).2.
Proof.
  intros Hr (f & late & Hh & Hf & Hts & Hq & Ht & Hl).
  destruct p as [hp q ts c n t e]. cbn in Hh, Hts, Hq, Ht. subst hp ts t.
  destruct Hf as (Hf1 & Hf2 & Hf3 & Hf4).
  destruct (decide (code = EADDRINUSE /\ port < MAX_PORT)) as [[-> Hlt]|Hn].
  - rewrite fallback_error_next by assumption.
    rewrite startHttpServerWithFallback_spec.
    destruct (handle f) eqn:Hhandle.
    + cbn [snd throw terminate record heap nextTickQueue timers clock listenCalls trace exitCode].
      eexists f, (_ :: _ :: late). cbn [heap nextTickQueue timers trace].
      repeat split; try assumption; try reflexivity. each_event.
    + cbn [snd]. eexists _, (_ :: _ :: late).
      cbn [heap nextTickQueue timers trace].
      split; [reflexivity|]. split; [|split; [reflexivity|split; [|split; [reflexivity|]]]].
      * split; [assumption|]. cbn [errorListeners listeningOnce].
        split; [now destruct (errorListeners f)|].
        split; each_event; eauto.
        exists (port + 1). split; [|reflexivity]. unfold in_range in *. lia.
      * each_event. now destruct (os n (port + 1)).
      * each_event. split; [assumption|]. unfold in_range in *. lia.
  - rewrite fallback_error_fatal.
    + cbn [snd]. eexists f, (_ :: _ :: late).
      cbn [heap nextTickQueue timers trace].
      repeat split; try assumption; try reflexivity. each_event.
    + destruct (decide (code = EADDRINUSE)); [right|left]; [|assumption].
      destruct (decide (port < MAX_PORT)); [|lia]. exfalso. apply Hn. now split.
Qed.

Lemma fallback_phase_intro h early f late q c n e :
  fallback_server (length h) f ->
  Forall (fun t => tick_server t = length h) q ->
  Forall fallback_event late ->
  fallback_phase h early (mkProcess (h ++ [f]) q [] c n (late ++ early) e).
Proof.
  intros Hf Hq Hl. exists f, late. cbn [heap nextTickQueue timers trace].
  split; [reflexivity|]. split; [exact Hf|]. split; [reflexivity|].
  split; [exact Hq|]. split; [reflexivity|exact Hl].
Qed.

Lemma call_all_fallback_phase h early code ls p :
  Forall (fun c => exists port, in_range port /\ c = fallback_error (length h) port) ls ->
  fallback_phase h early p ->
  fallback_phase h early (call_all os ls code p).2.
Proof.
  intros Hls. revert p. induction Hls as [|c rest (port & Hr & ->) _ IH]; intros p Hp.
  - assumption.
  - cbn [call_all]. unfold mbind, JS_bind.
    pose proof (fallback_error_phase h early port code p Hr Hp) as Hc.
    destruct (call os (fallback_error (length h) port) code p) as [[[]|] p']; cbn [snd] in *.
    + now apply IH.
    + assumption.
Qed.

(** The 'listening' callbacks print and change nothing else. *)
Lemma call_all_listening code ls h q ts c n t e :
  Forall is_listening ls ->
  exists printed,
    Forall is_print printed /\
    call_all os ls code (mkProcess h q ts c n t e) =
    (Some tt, mkProcess h q ts c n (printed ++ t) e).
Proof.
  intros Hls. revert t. induction Hls as [|cb rest Hcb _ IH]; intros t.
  - exists []. split; [constructor|reflexivity].
  - destruct cb; try contradiction.
    + cbn [call_all]. erewrite bind_some; [|apply startServer_listening_spec].
      destruct (IH (announce ("Express.js server running on port " +:+ decimal port) t))
        as (pr & Hpr & ->).
      exists (pr ++ firstn 4 (announce ("Express.js server running on port " +:+ decimal port) t)).
      split; [|now rewrite <- app_assoc].
      apply Forall_app. split; [assumption|]. cbn. now repeat constructor.
    + cbn [call_all]. erewrite bind_some; [|apply fallback_listening_spec].
      destruct (IH (announce ("HTTP fallback server running on port " +:+ decimal port) t))
        as (pr & Hpr & ->).
      exists (pr ++ firstn 4 (announce ("HTTP fallback server running on port " +:+ decimal port) t)).
      split; [|now rewrite <- app_assoc].
      apply Forall_app. split; [assumption|]. cbn. now repeat constructor.
Qed.

Lemma print_primary e : is_print e -> primary_event e.
Proof. now destruct e. Qed.

Lemma print_fallback e : is_print e -> fallback_event e.
Proof. now destruct e. Qed.

Lemma primary_listening srv : primary_server srv -> Forall is_listening (listeningOnce srv).
Proof.
  intros (_ & _ & H). eapply Forall_impl; [exact H|]. now intros c [port ->].
Qed.

Lemma fallback_listening_all i srv :
  fallback_server i srv -> Forall is_listening (listeningOnce srv).
Proof.
  intros (_ & _ & _ & H). eapply Forall_impl; [exact H|]. now intros c [port ->].
Qed.

(** The invariant is kept by every turn of the event loop. *)
Lemma Inv_turn p : Inv p -> Inv (turn os p).
Proof.
  intros HI. unfold turn. destruct (exitCode p) eqn:He; [assumption|].
  destruct p as [h q ts c n t e]. cbn [heap nextTickQueue timers clock listenCalls trace exitCode] in *.
  destruct HI as [Hh Hp Ht | h0 early Hh Hearly (f & late & Hheap & Hf & Hts & Hq & Ht & Hl)];
    cbn [heap nextTickQueue timers clock listenCalls trace exitCode] in *.
  - (* Primary sweep *)
    inversion Hp as [Eq Ets | tk Htk Eq Ets | due port rc Hport Eq Ets]; subst.
    + now apply Inv_primary.
    + destruct (lookup_lt_is_Some_2 h (tick_server tk) Htk) as [srv Hsrv].
      pose proof (proj1 (Forall_lookup _ _) Hh _ _ Hsrv) as Hprim.
      destruct tk as [s|s code]; cbn [tick_server run_tick] in *.
      * (* 'listening' *)
        unfold emit_listening. cbn [heap nextTickQueue timers clock listenCalls trace exitCode].
        rewrite Hsrv.
        destruct (call_all_listening EmptyString (listeningOnce srv)
                    (<[s := mkServer (requestListener srv) (handle srv) [] (errorListeners srv)]> h)
                    [] [] c n t None (primary_listening _ Hprim)) as (pr & Hpr & ->).
        cbn [snd]. apply Inv_primary; cbn [heap nextTickQueue timers trace].
        -- apply Forall_insert; [assumption|].
           destruct Hprim as (? & ? & ?). repeat split; try assumption. constructor.
        -- constructor.
        -- apply Forall_app. split; [|assumption].
           eapply Forall_impl; [exact Hpr|apply print_primary].
      * (* 'error' *)
        unfold emit_error. cbn [heap]. rewrite Hsrv.
        destruct Hprim as (_ & (port & rc & Hr & ->) & _).
        cbn [call_all]. unfold mbind, JS_bind.
        destruct (decide (code = EADDRINUSE)) as [->|Hne].
        -- destruct (decide (port < MAX_PORT)) as [Hlt|Hge].
           ++ rewrite startServer_error_retry by assumption. cbn [mret JS_ret snd].
              apply Inv_primary; cbn [heap nextTickQueue timers trace schedule].
              ** assumption.
              ** apply pending_timer. unfold in_range in Hr. lia.
              ** each_event.
           ++ rewrite startServer_error_exhausted by lia. cbn [mret JS_ret snd].
              eapply Inv_fallback; [exact Hh| |now apply switched_phase].
              each_event.
        -- rewrite startServer_error_other by assumption. cbn [mret JS_ret snd].
           eapply Inv_fallback; [exact Hh| |now apply switched_phase].
           each_event.
    + (* the retry timer *)
      rewrite startServer_timeout_spec, startServer_spec. cbn [snd].
      apply Inv_primary; cbn [heap nextTickQueue timers trace].
      * apply Forall_app. split; [assumption|]. constructor; [|constructor].
        split; [reflexivity|]. split.
        -- exists (port + 1), (rc + 1). split; [|reflexivity]. unfold in_range. lia.
        -- constructor; [now eexists|constructor].
      * apply pending_tick. rewrite length_app. destruct (os n (port + 1)); cbn; lia.
      * each_event. split; [reflexivity|]. unfold in_range. lia.
  - (* Fallback sweep *)
    subst h ts t.
    destruct q as [|tk q];
      [eapply Inv_fallback; [exact Hh|exact Hearly|now apply fallback_phase_intro]|].
    apply Forall_cons in Hq as [Htk Hq].
    destruct tk as [s|s code]; cbn [tick_server run_tick] in *; subst s.
    + unfold emit_listening. cbn [heap nextTickQueue timers clock listenCalls trace exitCode].
      rewrite list_lookup_middle by reflexivity.
      rewrite insert_app_r_alt by lia. rewrite Nat.sub_diag. cbn [insert list_insert].
      destruct (call_all_listening EmptyString (listeningOnce f) 
                  (h0 ++ [mkServer (requestListener f) (handle f) [] (errorListeners f)])
                  q [] c n (late ++ early) None (fallback_listening_all _ _ Hf))
        as (pr & Hpr & ->).
      cbn [snd]. eapply Inv_fallback; [exact Hh|exact Hearly|].
      eexists _, (pr ++ late). cbn [heap nextTickQueue timers trace].
      split; [reflexivity|]. split; [|split; [reflexivity|split; [assumption|split]]].
      * destruct Hf as (? & ? & ? & ?). repeat split; try assumption. constructor.
      * now rewrite app_assoc.
      * apply Forall_app. split; [|assumption].
        eapply Forall_impl; [exact Hpr|apply print_fallback].
    + unfold emit_error. cbn [heap]. rewrite list_lookup_middle by reflexivity.
      pose proof Hf as (_ & Hne & Hall & _).
      assert (Hphase : fallback_phase h0 early
                         (mkProcess (h0 ++ [f]) q [] c n (late ++ early) None))
        by now apply fallback_phase_intro.
      pose proof (call_all_fallback_phase h0 early code _ _ Hall Hphase) as Hres.
      destruct (errorListeners f) as [|l ls]; [contradiction|].
      eapply Inv_fallback; [exact Hh|exact Hearly|exact Hres].
Qed.

Lemma Inv_run n p : Inv p -> Inv (run os n p).
Proof. revert p. induction n as [|n IH]; intros p Hp; [assumption|]. cbn. apply IH, Inv_turn, Hp. Qed.

Lemma Inv_execute n : Inv (execute os n).
Proof. apply Inv_run, Inv_boot. Qed.

End Invariant.

(** ** The Primary sweep, attempt by attempt *)

Section Sweep.

Variable os : nat -> Z -> ListenResult.

Lemma run_snoc n p : run os (S n) p = turn os (run os n p).
Proof. revert p. induction n as [|n IH]; intros p; [reflexivity|]. cbn [run] in *. now rewrite <- IH. Qed.

Lemma execute_S n : execute os (S n) = turn os (execute os n).
Proof. apply run_snoc. Qed.

Lemma length_failed_servers k : length (failed_servers k) = k.
Proof. induction k as [|k IH]; [reflexivity|]. cbn. rewrite length_app, IH. cbn. lia. Qed.

Lemma port_of_S k : port_of (S k) = port_of k + 1.
Proof. unfold port_of. lia. Qed.

Lemma boot_attempting : boot os = attempting 0 (os 0%nat DEFAULT_PORT).
Proof.
  unfold boot, main, initial. erewrite bind_some; [|reflexivity].
  unfold record. cbn [heap nextTickQueue timers clock listenCalls trace exitCode].
  now rewrite startServer_spec.
Qed.

(** A conflict below MAX_PORT: one turn arms the timer, the next one waits
    RETRY_DELAY * 2^k and starts attempt k+1. *)
Lemma attempt_conflict k :
  port_of k < MAX_PORT ->
  turn os (turn os (attempting k conflict)) = attempting (S k) (os (S k) (port_of (S k))).
Proof.
  intros Hlt. unfold attempting at 1. unfold turn at 2.
  cbn [heap nextTickQueue timers clock listenCalls trace exitCode tick_of conflict run_tick].
  unfold emit_error. cbn [heap].
  rewrite list_lookup_middle by (now rewrite length_failed_servers).
  cbn [primary_attempt errorListeners call_all]. unfold mbind, JS_bind.
  rewrite startServer_error_retry by assumption. cbn [mret JS_ret snd schedule].
  unfold turn. cbn [heap nextTickQueue timers clock listenCalls trace exitCode].
  rewrite startServer_timeout_spec, startServer_spec. cbn [snd].
  rewrite length_app, length_failed_servers. cbn [length].
  replace (k + 1)%nat with (S k) by lia.
  rewrite <- port_of_S. replace (Z.of_nat k + 1) with (Z.of_nat (S k)) by lia.
  replace (elapsed k + RETRY_DELAY * 2 ^ Z.of_nat k - elapsed k)
    with (RETRY_DELAY * 2 ^ Z.of_nat k) by lia.
  reflexivity.
Qed.

(** After k conflicts in a row the process has tried exactly ports
    3000..3000+k-1, waited k times, and is trying port 3000+k. *)
Lemma sweep k :
  port_of k <= MAX_PORT ->
  (forall j, (j < k)%nat -> os j (port_of j) = conflict) ->
  execute os (2 * k) = attempting k (os k (port_of k)).
Proof.
  induction k as [|k IH]; intros Hk Hbusy.
  - apply boot_attempting.
  - replace (2 * S k)%nat with (S (S (2 * k))) by lia.
    unfold execute in *. rewrite !run_snoc.
    rewrite IH by (try (rewrite port_of_S in Hk; lia); intros; apply Hbusy; lia).
    rewrite Hbusy by lia. apply attempt_conflict. rewrite port_of_S in Hk. lia.
Qed.

(** A free port: the 'listening' callback prints and the process serves. *)
Lemma attempt_free k : turn os (attempting k ListenOk) = serving k.
Proof.
  unfold attempting, turn.
  cbn [heap nextTickQueue timers clock listenCalls trace exitCode tick_of run_tick].
  unfold emit_listening. cbn [heap nextTickQueue timers clock listenCalls trace exitCode].
  rewrite list_lookup_middle by (now rewrite length_failed_servers).
  rewrite insert_app_r_alt by (rewrite length_failed_servers; lia).
  rewrite length_failed_servers, Nat.sub_diag. reflexivity.
Qed.

Lemma serving_settled k n : run os n (serving k) = serving k.
Proof. induction n as [|n IH]; [reflexivity|]. cbn [run]. exact IH. Qed.

Lemma run_add n m p : run os (n + m) p = run os m (run os n p).
Proof. revert p. induction n as [|n IH]; intros p; [reflexivity|]. cbn [run Nat.add]. apply IH. Qed.

Lemma execute_add n m : execute os (n + m) = run os m (execute os n).
Proof. apply run_add. Qed.

(** What the serving process of attempt [k] has observably done. *)
Lemma serving_facts k :
  (k <= 10)%nat ->
  bound (serving k) = [(Primary, port_of k)] /\
  exitCode (serving k) = None /\
  listens (history (serving k))
    = map (fun q => (Primary, q)) (seqZ DEFAULT_PORT (Z.of_nat k + 1)) /\
  waits (history (serving k))
    = map (fun i => RETRY_DELAY * 2 ^ i) (seqZ 0 (Z.of_nat k)).
Proof.
  intros Hk.
  do 11 (destruct k as [|k]; [vm_compute; repeat split; reflexivity|]). lia.
Qed.

(** C2. For every port p in 3000..3010: if every listen call on a port in
    3000..p-1 fails with EADDRINUSE and every listen call on p succeeds,
    then from some turn on the process is bound to exactly port p through
    the Express application, it has tried the ports 3000, 3001, ..., p in
    this order, once each, and it has waited exactly p-3000 times, the i-th
    wait (i = 0 .. p-3000-1) lasting 1000 * 2^i milliseconds. *)
Theorem primary_binds_first_free_port (p : Z) :
  DEFAULT_PORT <= p <= MAX_PORT ->
  (forall n q, DEFAULT_PORT <= q < p -> os n q = ListenErr EADDRINUSE) ->
  (forall n, os n p = ListenOk) ->
  exists turns, forall m, (turns <= m)%nat ->
    bound (execute os m) = [(Primary, p)] /\
    exitCode (execute os m) = None /\
    listens (history (execute os m))
      = map (fun q => (Primary, q)) (seqZ DEFAULT_PORT (p - DEFAULT_PORT + 1)) /\
    waits (history (execute os m))
      = map (fun i => 1000 * 2 ^ i) (seqZ 0 (p - 3000)).
Proof.
  intros Hp Hbusy Hfree.
  set (k := Z.to_nat (p - DEFAULT_PORT)).
  assert (Hpk : port_of k = p) by (unfold port_of, k; lia).
  assert (Hk : (k <= 10)%nat).
  { clear Hpk Hbusy Hfree. unfold DEFAULT_PORT, MAX_PORT in *. subst k. lia. }
  exists (S (2 * k)). intros m Hm.
  replace m with (S (2 * k) + (m - S (2 * k)))%nat by lia.
  rewrite execute_add, execute_S, sweep.
  - rewrite Hpk, Hfree, attempt_free, serving_settled.
    destruct (serving_facts k Hk) as (Hb & He & Hl & Hw).
    rewrite Hb, He, Hl, Hw, Hpk.
    replace (Z.of_nat k + 1) with (p - DEFAULT_PORT + 1) by (unfold k; lia).
    replace (Z.of_nat k) with (p - 3000) by (unfold k, DEFAULT_PORT in *; lia).
    repeat split; reflexivity.
  - rewrite Hpk. lia.
  - intros j Hj. apply Hbusy. unfold port_of, k in *. lia.
Qed.

End Sweep.

(** ** Only the answers on ports 3000..3010 matter *)

Section Agreement.

Variables os os' : nat -> Z -> ListenResult.
Hypothesis agree : forall n port, in_range port -> os n port = os' n port.

Lemma listen_agree server port cb p :
  in_range port -> listen os server port cb p = listen os' server port cb p.
Proof.
  intros Hr. unfold listen. destruct (heap p !! server); [|reflexivity].
  destruct (handle s); [reflexivity|]. now rewrite agree.
Qed.

Lemma startHttpServerWithFallback_agree server port p :
  in_range port ->
  startHttpServerWithFallback os server port p = startHttpServerWithFallback os' server port p.
Proof.
  intros Hr. unfold startHttpServerWithFallback, mbind, JS_bind. now rewrite listen_agree.
Qed.

Lemma startHttpFallback_agree p : startHttpFallback os p = startHttpFallback os' p.
Proof.
  unfold startHttpFallback, mbind, JS_bind.
  destruct (console_log _ p) as [[[]|] p1]; [|reflexivity].
  destruct (createServer Fallback p1) as [[s|] p2]; [|reflexivity].
  apply startHttpServerWithFallback_agree, in_range_default.
Qed.

Lemma startServer_agree port rc p :
  in_range port -> startServer os port rc p = startServer os' port rc p.
Proof.
  intros Hr. unfold startServer, app_listen, mbind, JS_bind.
  destruct (createServer Primary p) as [[s|] p1]; [|reflexivity].
  now rewrite listen_agree.
Qed.

Lemma call_agree c code p : closure_safe c -> call os c code p = call os' c code p.
Proof.
  intros Hc. destruct c as [port|port rc|port rc|port|server port]; cbn [call closure_safe] in *.
  - reflexivity.
  - destruct (String.eqb code EADDRINUSE).
    + unfold mbind, JS_bind. destruct (console_log _ p) as [[[]|] p1]; [|reflexivity].
      destruct (MAX_PORT <=? port); [|reflexivity].
      destruct (console_error _ p1) as [[[]|] p2]; [|reflexivity].
      destruct (console_log _ p2) as [[[]|] p3]; [|reflexivity].
      apply startHttpFallback_agree.
    + unfold mbind, JS_bind. destruct (console_error _ p) as [[[]|] p1]; [|reflexivity].
      destruct (console_log _ p1) as [[[]|] p2]; [|reflexivity].
      apply startHttpFallback_agree.
  - now apply startServer_agree.
  - reflexivity.
  - destruct (String.eqb code EADDRINUSE); [|reflexivity]. cbn [andb].
    destruct (Z.ltb_spec port MAX_PORT); [|reflexivity].
    unfold mbind, JS_bind. destruct (console_log _ p) as [[[]|] p1]; [|reflexivity].
    apply startHttpServerWithFallback_agree. auto.
Qed.

Lemma call_all_agree ls code p :
  Forall closure_safe ls -> call_all os ls code p = call_all os' ls code p.
Proof.
  intros Hls. revert p. induction Hls as [|c ls Hc _ IH]; intros p; [reflexivity|].
  cbn [call_all]. unfold mbind, JS_bind. rewrite call_agree by assumption.
  destruct (call os' c code p) as [[[]|] p1]; [apply IH|reflexivity].
Qed.

Lemma turn_agree p : heap_safe p -> turn os p = turn os' p.
Proof.
  intros [Hheap Htimers]. unfold turn. destruct (exitCode p); [reflexivity|].
  destruct (nextTickQueue p) as [|[s|s code] q].
  - destruct (timers p) as [|[due cb] ts]; [reflexivity|].
    apply Forall_cons in Htimers as [Hcb _]. now rewrite call_agree.
  - cbn [run_tick]. unfold emit_listening. cbn [heap].
    destruct (heap p !! s) as [srv|] eqn:Hs; [|reflexivity].
    rewrite call_all_agree; [reflexivity|].
    exact (proj1 (proj1 (Forall_lookup _ _) Hheap _ _ Hs)).
  - cbn [run_tick]. unfold emit_error. cbn [heap].
    destruct (heap p !! s) as [srv|] eqn:Hs; [|reflexivity].
    pose proof (proj2 (proj1 (Forall_lookup _ _) Hheap _ _ Hs)) as Hsafe.
    destruct (errorListeners srv) as [|l ls]; [reflexivity|].
    now rewrite call_all_agree.
Qed.

Lemma primary_server_safe srv :
  primary_server srv ->
  Forall closure_safe (listeningOnce srv) /\ Forall closure_safe (errorListeners srv).
Proof.
  intros (_ & (port & rc & _ & ->) & Hl). split.
  - eapply Forall_impl; [exact Hl|]. now intros c [q ->].
  - now repeat constructor.
Qed.

Lemma fallback_server_safe i srv :
  fallback_server i srv ->
  Forall closure_safe (listeningOnce srv) /\ Forall closure_safe (errorListeners srv).
Proof.
  intros (_ & _ & He & Hl). split.
  - eapply Forall_impl; [exact Hl|]. now intros c [q ->].
  - eapply Forall_impl; [exact He|]. intros c (q & Hq & ->). cbn. unfold in_range in *. lia.
Qed.

Lemma Inv_safe p : Inv p -> heap_safe p.
Proof.
  intros [Hh Hp _ | h early Hh _ (f & late & Hheap & Hf & Hts & _)]; split.
  - eapply Forall_impl; [exact Hh|apply primary_server_safe].
  - inversion Hp; constructor; [|constructor]. cbn. unfold in_range, DEFAULT_PORT in *. lia.
  - rewrite Hheap. apply Forall_app. split.
    + eapply Forall_impl; [exact Hh|apply primary_server_safe].
    + constructor; [|constructor]. eapply fallback_server_safe, Hf.
  - rewrite Hts. constructor.
Qed.

Lemma boot_agree : boot os = boot os'.
Proof. unfold boot, main, mbind, JS_bind. cbn. now rewrite startServer_agree. Qed.

(** Two operating systems that answer alike on ports 3000..3010 drive
    server.js through the same run. *)
Lemma execute_agree n : execute os n = execute os' n.
Proof.
  induction n as [|n IH]; unfold execute in *.
  - apply boot_agree.
  - rewrite (run_snoc os), (run_snoc os'), IH.
    apply turn_agree, Inv_safe. rewrite <- IH. apply Inv_execute.
Qed.

End Agreement.

(** ** The claims about acquisition *)

Section Claims.

Variable os : nat -> Z -> ListenResult.

Lemma Inv_split p :
  Inv p ->
  exists late early,
    trace p = late ++ early /\ Forall fallback_event late /\ Forall primary_event early.
Proof.
  intros [_ _ Ht | h early _ He (f & late & _ & _ & _ & _ & Ht & Hl)].
  - exists [], (trace p). now repeat split.
  - now exists late, early.
Qed.

Lemma listens_primary es :
  Forall primary_event es -> Forall (fun x => x = Primary) (map fst (listens es)).
Proof.
  induction 1 as [|e es He _ IH]; [constructor|].
  destruct e; cbn; try assumption. constructor; [apply He|assumption].
Qed.

Lemma listens_fallback es :
  Forall fallback_event es -> Forall (fun x => x = Fallback) (map fst (listens es)).
Proof.
  induction 1 as [|e es He _ IH]; [constructor|].
  destruct e; cbn; try assumption. constructor; [apply He|assumption].
Qed.

Lemma switches_uniform s l : Forall (fun x => x = s) l -> switches l = [].
Proof.
  induction 1 as [|a l -> Hl IH]; [reflexivity|].
  cbn [switches]. destruct Hl as [|b l -> Hl]; [reflexivity|].
  rewrite decide_True by reflexivity. exact IH.
Qed.

Lemma switches_once l1 l2 :
  Forall (fun x => x = Primary) l1 -> Forall (fun x => x = Fallback) l2 ->
  switches (l1 ++ l2) = [] \/ switches (l1 ++ l2) = [(Primary, Fallback)].
Proof.
  intros H1 H2. induction H1 as [|a l1 -> Hl1 IH].
  - left. now apply switches_uniform with (s := Fallback).
  - destruct Hl1 as [|b l1 -> Hl1].
    + cbn [app switches]. destruct H2 as [|c l2 -> H2]; [now left|].
      rewrite decide_False by discriminate. right. f_equal.
      apply switches_uniform with (s := Fallback). now constructor.
    + cbn [app switches] in *. rewrite decide_True by reflexivity. exact IH.
Qed.

Lemma in_range_bounds port : in_range port -> 3000 <= port <= 3010.
Proof. unfold in_range, DEFAULT_PORT, MAX_PORT. lia. Qed.

(** C8. In every run, for every answer of the operating system and after
    any number of turns: every port handed to listen lies in 3000..3010, and
    along the bind attempts the strategy changes at most once, from Primary
    to Fallback, and never from Fallback to Primary. *)
Theorem ports_in_range_and_one_switch (n : nat) :
  (forall s port r, In (Listen s port r) (history (execute os n)) -> 3000 <= port <= 3010) /\
  (switches (map fst (listens (history (execute os n)))) = [] \/
   switches (map fst (listens (history (execute os n)))) = [(Primary, Fallback)]).
Proof.
  destruct (Inv_split _ (Inv_execute os n)) as (late & early & Ht & Hl & He).
  unfold history. rewrite Ht. split.
  - intros s port r Hin. apply in_rev in Hin. apply in_app_or in Hin.
    apply in_range_bounds. destruct Hin as [Hin|Hin].
    + apply (proj1 (List.Forall_forall _ _) Hl) in Hin. apply Hin.
    + apply (proj1 (List.Forall_forall _ _) He) in Hin. apply Hin.
  - rewrite rev_app_distr. unfold listens. rewrite omap_app, map_app.
    apply switches_once.
    + apply listens_primary, List.Forall_rev, He.
    + apply listens_fallback, List.Forall_rev, Hl.
Qed.

Lemma run_exited n p status : exitCode p = Some status -> run os n p = p.
Proof.
  intros He. induction n as [|n IH]; [reflexivity|].
  cbn [run]. unfold turn. now rewrite He.
Qed.

(** C3. If each of the eleven Primary attempts (the k-th listen call, on
    port 3000+k) fails with EADDRINUSE, the run reaches a point where the
    failure on port 3010 is followed by console lines only and then by the
    first Fallback attempt, on port 3000: no wait lies in between.  In every
    run no wait ever follows a Fallback attempt, and a Fallback listener
    that sees a conflict below port 3010 calls listen on the next port in
    the same turn, arming no timer. *)
Theorem fallback_starts_without_delay :
  (forall k, (k <= 10)%nat -> os k (port_of k) = ListenErr EADDRINUSE) ->
  (exists turns before,
     history (execute os turns) =
     before ++ [Listen Primary MAX_PORT (ListenErr EADDRINUSE);
                ConsoleLog ("Port " +:+ decimal MAX_PORT
                            +:+ " is in use, attempting next port...");
                ConsoleError RANGE_IN_USE;
                ConsoleLog ATTEMPTING_FALLBACK;
                ConsoleLog "Initializing native HTTP server fallback...";
                Listen Fallback DEFAULT_PORT (os 11%nat DEFAULT_PORT)]) /\
  (forall n before port r after ms,
     history (execute os n) = before ++ Listen Fallback port r :: after ->
     ~ In (Wait ms) after) /\
  (forall h f q ts c n t e port,
     handle f = None -> port < MAX_PORT ->
     let p' := (call os (fallback_error (length h) port) EADDRINUSE
                     (mkProcess (h ++ [f]) q ts c n t e)).2 in
     timers p' = ts /\ clock p' = c /\
     trace p' = Listen (requestListener f) (port + 1) (os n (port + 1))
                  :: ConsoleLog ("Port " +:+ decimal port +:+ " is in use, trying port "
                                 +:+ decimal (port + 1) +:+ "...") :: t).
Proof.
  intros Hbusy. split; [|split].
  - exists 21%nat, (rev (failed_trace 10)).
    change 21%nat with (S (2 * 10)). rewrite execute_S, sweep.
    + rewrite Hbusy by lia. unfold attempting, turn.
      cbn [heap nextTickQueue timers clock listenCalls trace exitCode tick_of run_tick].
      unfold emit_error. cbn [heap].
      rewrite list_lookup_middle by (now rewrite length_failed_servers).
      cbn [primary_attempt errorListeners call_all]. unfold mbind, JS_bind.
      rewrite startServer_error_exhausted by (vm_compute; discriminate).
      cbn [mret JS_ret snd]. unfold switched, history, switch_trace.
      cbn [trace app rev]. rewrite <- !app_assoc. reflexivity.
    + vm_compute. discriminate.
    + intros j Hj. apply Hbusy. lia.
  - intros n before port r after ms Hh Hin.
    destruct (Inv_split _ (Inv_execute os n)) as (late & early & Ht & Hl & He).
    unfold history in Hh. rewrite Ht, rev_app_distr in Hh.
    assert (Hafter : forall x, In x after -> In x (rev late)).
    { apply List.app_eq_app in Hh as [l [[H1 H2]|[H1 H2]]].
      - destruct l as [|x l].
        + cbn in H2. rewrite <- H2. intros y Hy. now right.
        + exfalso. cbn in H2. injection H2 as <- _.
          assert (Hx : In (Listen Fallback port r) (rev early))
            by (rewrite H1; apply in_or_app; right; now left).
          apply in_rev in Hx. apply (proj1 (List.Forall_forall _ _) He) in Hx.
          cbn in Hx. destruct Hx as [Hx _]. discriminate.
      - intros y Hy. rewrite H2. apply in_or_app. right. now right. }
    apply Hafter, in_rev in Hin.
    apply (proj1 (List.Forall_forall _ _) Hl) in Hin. exact Hin.
  - intros h f q ts c n t e port Hf Hlt p'. subst p'.
    rewrite fallback_error_next by assumption.
    rewrite startHttpServerWithFallback_spec, Hf. cbn. now repeat split.
Qed.

(** C5. A deferred 'error' event whose code is not EADDRINUSE, dispatched in
    a running process: if its server is an Express one, the same turn prints
    the error, starts the bare http server and calls listen on port 3000,
    with no timer armed and no further Primary attempt; if its server is the
    fallback server, the turn prints the fatal line and exits with
    status 1. *)
Theorem other_error_switches_or_dies (n s : nat) (code : string) (q : list Tick) :
  exitCode (execute os n) = None ->
  nextTickQueue (execute os n) = emitErrorNT s code :: q ->
  code <> EADDRINUSE ->
  exists srv,
    heap (execute os n) !! s = Some srv /\
    match requestListener srv with
    | Primary =>
        exitCode (turn os (execute os n)) = None /\
        timers (turn os (execute os n)) = [] /\
        trace (turn os (execute os n)) =
          Listen Fallback DEFAULT_PORT (os (listenCalls (execute os n)) DEFAULT_PORT)
            :: ConsoleLog "Initializing native HTTP server fallback..."
            :: ConsoleLog ATTEMPTING_FALLBACK
            :: ConsoleError ("Server error: " +:+ code)
            :: trace (execute os n)
    | Fallback =>
        exitCode (turn os (execute os n)) = Some 1 /\
        trace (turn os (execute os n)) =
          ProcessExit 1 :: ConsoleError FATAL :: trace (execute os n)
    end.
Proof.
  pose proof (Inv_execute os n) as HI. revert HI.
  generalize (execute os n). intros p HI He Hq Hcode.
  destruct p as [h q0 ts c m t e].
  cbn [heap nextTickQueue timers clock listenCalls trace exitCode] in *. subst q0 e.
  destruct HI as [Hh Hp Ht | h0 early Hh Hearly (f & late & Hheap & Hf & Hts & Hq & Ht & Hl)];
    cbn [heap nextTickQueue timers clock listenCalls trace exitCode] in *.
  - inversion Hp as [| tk Htk Eq Ets |]; subst. cbn [tick_server] in Htk.
    destruct (lookup_lt_is_Some_2 h s Htk) as [srv Hsrv].
    pose proof (proj1 (Forall_lookup _ _) Hh _ _ Hsrv) as (Hprim & (port & rc & Hr & Herr) & _).
    exists srv. split; [assumption|]. rewrite Hprim.
    unfold turn. cbn [heap nextTickQueue timers clock listenCalls trace exitCode run_tick].
    unfold emit_error. cbn [heap]. rewrite Hsrv, Herr.
    cbn [call_all]. unfold mbind, JS_bind.
    rewrite startServer_error_other by assumption. cbn [mret JS_ret snd].
    unfold switched, switch_trace. cbn. now repeat split.
  - subst h ts t. apply Forall_cons in Hq as [Hs Hq]. cbn [tick_server] in Hs. subst s.
    exists f. split; [apply list_lookup_middle; reflexivity|].
    destruct Hf as (Hfb & Hne & Hall & _). rewrite Hfb.
    unfold turn. cbn [heap nextTickQueue timers clock listenCalls trace exitCode run_tick].
    unfold emit_error. cbn [heap]. rewrite list_lookup_middle by reflexivity.
    destruct (errorListeners f) as [|l ls]; [contradiction|].
    apply Forall_cons in Hall as [(port & _ & ->) _].
    cbn [call_all]. unfold mbind, JS_bind.
    rewrite fallback_error_fatal by now left. cbn. now split.
Qed.

End Claims.

Section Exhausted.

Variable os : nat -> Z -> ListenResult.

Lemma all_busy_exit :
  exitCode (execute all_busy 32) = Some 1 /\
  fatal_diagnostic (execute all_busy 32) = Some FATAL /\
  printed_error RANGE_IN_USE (execute all_busy 32) = true.
Proof. vm_compute. now repeat split. Qed.

Lemma all_busy_running n : (n < 32)%nat -> exitCode (execute all_busy n) = None.
Proof.
  intros Hn. do 32 (destruct n as [|n]; [vm_compute; reflexivity|]). lia.
Qed.

Lemma all_busy_settled m : (32 <= m)%nat -> execute all_busy m = execute all_busy 32.
Proof.
  intros Hm. replace m with (32 + (m - 32))%nat by lia.
  rewrite execute_add. apply run_exited with (status := 1).
  exact (proj1 all_busy_exit).
Qed.

Lemma all_busy_range :
  range_lines (history (execute all_busy 32)) = [ConsoleError RANGE_IN_USE] /\
  history (execute all_busy 32) =
    firstn 31 (history (execute all_busy 32))
      ++ [Listen Primary MAX_PORT (ListenErr EADDRINUSE);
          ConsoleLog "Port 3010 is in use, attempting next port...";
          ConsoleError RANGE_IN_USE]
      ++ removelast (removelast (skipn 34 (history (execute all_busy 32))))
      ++ [ConsoleError FATAL; ProcessExit 1] /\
  listens (firstn 31 (history (execute all_busy 32)))
    = map (fun q => (Primary, q)) (seqZ 3000 10) /\
  Forall (fun x => x.1 = Fallback)
         (listens (removelast (removelast (skipn 34 (history (execute all_busy 32)))))).
Proof.
  split; [vm_compute; reflexivity|]. split; [vm_compute; reflexivity|].
  split; [vm_compute; reflexivity|].
  apply (bool_decide_unpack _). vm_compute. exact I.
Qed.

(** C4, as amended. If every listen call on a port in 3000..3010 fails with
    EADDRINUSE, then from some turn on the process has exited with status 1
    and the line printed right before the exit is the fatal line of
    startHttpServerWithFallback, which shows neither bound of the range.
    The one console line of the whole run that names the range 3000 to 3010
    is the console.error line of startServer, printed when the Primary sweep
    is exhausted: right after the failed attempt on port 3010, which the
    ten attempts on 3000..3009 precede, and before every attempt of the
    Fallback strategy, the fatal line and the exit. *)
Theorem exhausted_everywhere_exits_1 :
  (forall n port, in_range port -> os n port = ListenErr EADDRINUSE) ->
  exists turns, forall m, (turns <= m)%nat ->
    exitCode (execute os m) = Some 1 /\
    fatal_diagnostic (execute os m)
      = Some "Fatal error: Unable to start server on any available port" /\
    names_range "Fatal error: Unable to start server on any available port" = false /\
    printed_error "All ports from 3000 to 3010 are in use." (execute os m) = true /\
    range_lines (history (execute os m))
      = [ConsoleError "All ports from 3000 to 3010 are in use."] /\
    exists before after,
      history (execute os m) =
        before ++ [Listen Primary MAX_PORT (ListenErr EADDRINUSE);
                   ConsoleLog "Port 3010 is in use, attempting next port...";
                   ConsoleError "All ports from 3000 to 3010 are in use."]
               ++ after
               ++ [ConsoleError "Fatal error: Unable to start server on any available port";
                   ProcessExit 1] /\
      listens before = map (fun q => (Primary, q)) (seqZ 3000 10) /\
      Forall (fun x => x.1 = Fallback) (listens after).
Proof.
  intros Hbusy. exists 32%nat. intros m Hm.
  rewrite (execute_agree os all_busy) by (intros; now apply Hbusy).
  rewrite all_busy_settled by assumption.
  destruct all_busy_range as (Hr & Hh & Hb & Ha).
  split; [vm_compute; reflexivity|]. split; [vm_compute; reflexivity|].
  split; [vm_compute; reflexivity|]. split; [vm_compute; reflexivity|].
  split; [exact Hr|].
  exists (firstn 31 (history (execute all_busy 32))),
         (removelast (removelast (skipn 34 (history (execute all_busy 32))))).
  split; [exact Hh|]. split; [exact Hb|exact Ha].
Qed.

End Exhausted.

(** C4, as stated, fails when every port is occupied: the process never
    exits with a fatal diagnostic that identifies the port range. *)
Lemma fatal_line_does_not_name_range :
  ~ exists n, exits_naming_range (execute all_busy n).
Proof.
  intros [n [He (line & Hl & Hn)]].
  destruct (le_lt_dec 32 n) as [Hge|Hlt].
  - rewrite all_busy_settled in Hl by assumption.
    destruct all_busy_exit as (_ & Hf & _). rewrite Hf in Hl.
    injection Hl as <-. clear He. vm_compute in Hn. discriminate Hn.
  - rewrite all_busy_running in He by assumption. discriminate He.
Qed.

(** C9 at its failing input, every port occupied: the Fallback sweep calls
    listen on port 3001 twice before it first tries 3002; by the time the
    process exits it has tried 3001 eleven times and 3005 462 times, and
    1014 'error' events of the one fallback server are pending at once. *)
Theorem fallback_sweep_repeats_ports :
  skipn 11 (listens (history (execute all_busy 23)))
    = [(Fallback, 3000); (Fallback, 3001); (Fallback, 3001); (Fallback, 3002)] /\
  attempts_of Fallback 3001 (execute all_busy 32) = 11%nat /\
  attempts_of Fallback 3005 (execute all_busy 32) = 462%nat /\
  length (nextTickQueue (execute all_busy 31)) = 1014%nat.
Proof. vm_compute. now repeat split. Qed.

(** The same defect with a free port: after a Primary permission error,
    with ports 3000 and 3001 occupied and 3002 free, the fallback server
    binds 3002; the stale listener of port 3000 then calls listen again,
    which throws, and the process dies with status 1 instead of serving. *)
Lemma fallback_dies_on_third_port :
  exitCode (execute (denied_then_busy_below 3002) 5) = Some 1 /\
  head (trace (execute (denied_then_busy_below 3002) 5))
    = Some (Uncaught "ERR_SERVER_ALREADY_LISTEN") /\
  bound (execute (denied_then_busy_below 3002) 5) = [(Fallback, 3002)].
Proof. vm_compute. now repeat split. Qed.

(** The Fallback side of C5 on a run: the Primary sweep ends in conflicts,
    the first listen call of the fallback server fails with EACCES, and the
    next turn prints the fatal line and exits with status 1. *)
Example fallback_permission_error_is_fatal :
  nextTickQueue (execute denied_after_sweep 21) = [emitErrorNT 11 "EACCES"] /\
  exitCode (execute denied_after_sweep 21) = None /\
  exitCode (execute denied_after_sweep 22) = Some 1 /\
  firstn 2 (trace (execute denied_after_sweep 22)) = [ProcessExit 1; ConsoleError FATAL].
Proof. vm_compute. now repeat split. Qed.

(** ** Witnesses *)

Lemma primary_binds_first_free_port_witness :
  DEFAULT_PORT <= 3002 <= MAX_PORT /\
  (forall n q, DEFAULT_PORT <= q < 3002 -> busy_below 3002 n q = ListenErr EADDRINUSE) /\
  (forall n, busy_below 3002 n 3002 = ListenOk) /\
  exists turns, forall m, (turns <= m)%nat ->
    bound (execute (busy_below 3002) m) = [(Primary, 3002)] /\
    exitCode (execute (busy_below 3002) m) = None /\
    listens (history (execute (busy_below 3002) m))
      = map (fun q => (Primary, q)) (seqZ DEFAULT_PORT (3002 - DEFAULT_PORT + 1)) /\
    waits (history (execute (busy_below 3002) m))
      = map (fun i => 1000 * 2 ^ i) (seqZ 0 (3002 - 3000)).
Proof.
  assert (H1 : DEFAULT_PORT <= 3002 <= MAX_PORT) by (vm_compute; split; discriminate).
  assert (H2 : forall (n : nat) q, DEFAULT_PORT <= q < 3002 ->
                 busy_below 3002 n q = ListenErr EADDRINUSE).
  { intros n q Hq. unfold busy_below. destruct (Z.ltb_spec q 3002); [reflexivity|lia]. }
  assert (H3 : forall n : nat, busy_below 3002 n 3002 = ListenOk) by reflexivity.
  split; [exact H1|]. split; [exact H2|]. split; [exact H3|].
  exact (primary_binds_first_free_port (busy_below 3002) 3002 H1 H2 H3).
Defined.

Lemma fallback_starts_without_delay_witness :
  (forall k, (k <= 10)%nat -> all_busy k (port_of k) = ListenErr EADDRINUSE) /\
  exists turns before,
    history (execute all_busy turns) =
    before ++ [Listen Primary MAX_PORT (ListenErr EADDRINUSE);
               ConsoleLog ("Port " +:+ decimal MAX_PORT
                           +:+ " is in use, attempting next port...");
               ConsoleError RANGE_IN_USE;
               ConsoleLog ATTEMPTING_FALLBACK;
               ConsoleLog "Initializing native HTTP server fallback...";
               Listen Fallback DEFAULT_PORT (all_busy 11%nat DEFAULT_PORT)].
Proof.
  assert (H : forall k, (k <= 10)%nat -> all_busy k (port_of k) = ListenErr EADDRINUSE)
    by reflexivity.
  split; [exact H|]. exact (proj1 (fallback_starts_without_delay all_busy H)).
Defined.

Lemma exhausted_everywhere_exits_1_witness :
  (forall n port, in_range port -> all_busy n port = ListenErr EADDRINUSE) /\
  exists turns, forall m, (turns <= m)%nat ->
    exitCode (execute all_busy m) = Some 1 /\
    fatal_diagnostic (execute all_busy m)
      = Some "Fatal error: Unable to start server on any available port" /\
    names_range "Fatal error: Unable to start server on any available port" = false /\
    printed_error "All ports from 3000 to 3010 are in use." (execute all_busy m) = true /\
    range_lines (history (execute all_busy m))
      = [ConsoleError "All ports from 3000 to 3010 are in use."] /\
    exists before after,
      history (execute all_busy m) =
        before ++ [Listen Primary MAX_PORT (ListenErr EADDRINUSE);
                   ConsoleLog "Port 3010 is in use, attempting next port...";
                   ConsoleError "All ports from 3000 to 3010 are in use."]
               ++ after
               ++ [ConsoleError "Fatal error: Unable to start server on any available port";
                   ProcessExit 1] /\
      listens before = map (fun q => (Primary, q)) (seqZ 3000 10) /\
      Forall (fun x => x.1 = Fallback) (listens after).
Proof.
  assert (H : forall (n : nat) port, in_range port -> all_busy n port = ListenErr EADDRINUSE)
    by reflexivity.
  split; [exact H|]. exact (exhausted_everywhere_exits_1 all_busy H).
Defined.

Lemma other_error_switches_or_dies_witness :
  exitCode (execute first_denied 0) = None /\
  nextTickQueue (execute first_denied 0) = [emitErrorNT 0 "EACCES"] /\
  "EACCES" <> EADDRINUSE /\
  exists srv,
    heap (execute first_denied 0) !! 0%nat = Some srv /\
    match requestListener srv with
    | Primary =>
        exitCode (turn first_denied (execute first_denied 0)) = None /\
        timers (turn first_denied (execute first_denied 0)) = [] /\
        trace (turn first_denied (execute first_denied 0)) =
          Listen Fallback DEFAULT_PORT
                 (first_denied (listenCalls (execute first_denied 0)) DEFAULT_PORT)
            :: ConsoleLog "Initializing native HTTP server fallback..."
            :: ConsoleLog ATTEMPTING_FALLBACK
            :: ConsoleError ("Server error: " +:+ "EACCES")
            :: trace (execute first_denied 0)
    | Fallback =>
        exitCode (turn first_denied (execute first_denied 0)) = Some 1 /\
        trace (turn first_denied (execute first_denied 0)) =
          ProcessExit 1 :: ConsoleError FATAL :: trace (execute first_denied 0)
    end.
Proof.
  assert (H1 : exitCode (execute first_denied 0) = None) by reflexivity.
  assert (H2 : nextTickQueue (execute first_denied 0) = [emitErrorNT 0 "EACCES"])
    by reflexivity.
  assert (H3 : "EACCES" <> EADDRINUSE) by discriminate.
  split; [exact H1|]. split; [exact H2|]. split; [exact H3|].
  exact (other_error_switches_or_dies first_denied 0 0 "EACCES" [] H1 H2 H3).
Defined.

(** ** The sweep invariant *)

Section SweepInvariant.

Variable os : nat -> Z -> ListenResult.

Lemma answers_prints pr t : Forall is_print pr -> answers (pr ++ t) = answers t.
Proof.
  induction 1 as [|e pr He _ IH]; [reflexivity|].
  destruct e; try contradiction; exact IH.
Qed.

Lemma marks_prints pr t : Forall is_print pr -> marks (pr ++ t) = marks t.
Proof.
  induction 1 as [|e pr He _ IH]; [reflexivity|].
  destruct e; try contradiction; exact IH.
Qed.

Lemma last_listen_prints pr t : Forall is_print pr -> last_listen (pr ++ t) = last_listen t.
Proof. intros H. unfold last_listen. now rewrite answers_prints. Qed.

Lemma elapsed_S k : elapsed (S k) = elapsed k + delay k.
Proof. reflexivity. Qed.

Lemma bound_heap h q ts c n t e : bound (mkProcess h q ts c n t e) = omap socket h.
Proof. reflexivity. Qed.

Lemma sockets_insert (h : list Server) s srv srv' :
  h !! s = Some srv -> socket srv' = socket srv ->
  omap socket (<[s := srv']> h) = omap socket h.
Proof.
  revert s. induction h as [|x h IH]; intros [|s] Hs Heq; try discriminate.
  - cbn in Hs. injection Hs as ->. cbn. now rewrite Heq.
  - cbn in Hs |- *. destruct (socket x); [f_equal|]; exact (IH s Hs Heq).
Qed.

Lemma sockets_none (h : list Server) :
  omap socket h = [] -> Forall (fun srv => handle srv = None) h.
Proof.
  induction h as [|x h IH]; [constructor|].
  cbn. unfold socket at 1. destruct (handle x) eqn:Hx; [discriminate|].
  intros H. constructor; [assumption|now apply IH].
Qed.

Lemma sockets_of_none (h : list Server) :
  Forall (fun srv => handle srv = None) h -> omap socket h = [].
Proof.
  induction 1 as [|x h Hx _ IH]; [reflexivity|].
  cbn. unfold socket at 1. now rewrite Hx.
Qed.

Lemma Sweep_boot : Sweep (boot os).
Proof.
  rewrite boot_attempting. unfold attempting.
  apply Sweep_primary with (k := 0%nat);
    cbn [heap nextTickQueue timers clock listenCalls trace exitCode failed_servers app].
  - lia.
  - now repeat constructor.
  - reflexivity.
  - reflexivity.
  - reflexivity.
  - rewrite bound_heap. cbn. unfold socket. cbn. now destruct (os 0%nat DEFAULT_PORT).
  - intros s code [Hin|[]]. rewrite bound_heap. cbn. unfold socket. cbn.
    destruct (os 0%nat DEFAULT_PORT); [discriminate|]. cbn in Hin. injection Hin as <- <-.
    split; [reflexivity|]. now eexists.
  - intros due c [].
Qed.

(** One listener of the fallback server, whatever it does. *)
Lemma fallback_error_sweep h early c port code p :
  in_range port ->
  fallback_sweep h early c p ->
  fallback_sweep h early c (call os (fallback_error (length h) port) code p).2.
Proof.
  intros Hr (f & late & Hh & Hfb & Ht & Hl & Hlen & Hne & Hhandle & Hc & He).
  destruct p as [hp q ts c0 n t e].
  cbn [heap nextTickQueue timers clock listenCalls trace exitCode] in *. subst hp t c0.
  destruct (decide (code = EADDRINUSE /\ port < MAX_PORT)) as [[-> Hlt]|Hn].
  - rewrite fallback_error_next by assumption.
    rewrite startHttpServerWithFallback_spec.
    destruct (handle f) eqn:Hf.
    + cbn [snd throw terminate record heap nextTickQueue timers clock listenCalls trace exitCode].
      eexists f, (_ :: _ :: late).
      cbn [heap nextTickQueue timers clock listenCalls trace exitCode].
      split; [reflexivity|]. split; [assumption|]. split; [reflexivity|].
      split; [each_event|]. split; [exact Hlen|]. split; [exact Hne|].
      split; [now rewrite Hf|]. split; [reflexivity|now right].
    + cbn [snd]. eexists _, (_ :: _ :: late).
      cbn [heap nextTickQueue timers clock listenCalls trace exitCode].
      split; [reflexivity|]. split; [exact Hfb|]. split; [reflexivity|].
      split; [|split; [|split; [|split; [|split; [reflexivity|exact He]]]]].
      * each_event. rewrite Hfb. split; [reflexivity|]. unfold in_range in *. lia.
      * cbn [errorListeners answers omap]. rewrite length_app. cbn. unfold answers in Hlen. lia.
      * discriminate.
      * cbn. now destruct (os n (port + 1)).
  - rewrite fallback_error_fatal.
    + cbn [snd]. eexists f, (_ :: _ :: late).
      cbn [heap nextTickQueue timers clock listenCalls trace exitCode].
      split; [reflexivity|]. split; [assumption|]. split; [reflexivity|].
      split; [each_event|]. split; [exact Hlen|]. split; [exact Hne|].
      split; [exact Hhandle|]. split; [reflexivity|now right].
    + destruct (decide (code = EADDRINUSE)); [right|left]; [|assumption].
      destruct (decide (port < MAX_PORT)); [|lia]. exfalso. apply Hn. now split.
Qed.

Lemma call_all_fallback_sweep h early c code ls p :
  Forall (fun l => exists port, in_range port /\ l = fallback_error (length h) port) ls ->
  fallback_sweep h early c p ->
  fallback_sweep h early c (call_all os ls code p).2.
Proof.
  intros Hls. revert p. induction Hls as [|l rest (port & Hr & ->) _ IH]; intros p Hp.
  - assumption.
  - cbn [call_all]. unfold mbind, JS_bind.
    pose proof (fallback_error_sweep h early c port code p Hr Hp) as Hc.
    destruct (call os (fallback_error (length h) port) code p) as [[[]|] p']; cbn [snd] in *.
    + now apply IH.
    + assumption.
Qed.

Lemma primary_fallback_clash h f :
  Forall primary_server (h ++ [f]) -> requestListener f = Fallback -> False.
Proof.
  intros H Hf. apply Forall_app in H as [_ H]. apply Forall_cons in H as [(Hp & _) _].
  rewrite Hp in Hf. discriminate.
Qed.

(** Entering the Fallback strategy. *)
Lemma switched_sweep reason h n t k :
  Forall is_print reason -> (k <= 10)%nat ->
  omap socket h = [] -> marks t = primary_marks k ->
  Sweep (switched os reason h [] [] (elapsed k) n t None).
Proof.
  intros Hreason Hk Hb Hmarks. unfold switched, switch_trace.
  apply Sweep_fallback
    with (k := k) (h := h)
         (early := ConsoleLog "Initializing native HTTP server fallback..."
                     :: ConsoleLog ATTEMPTING_FALLBACK :: reason ++ t).
  - assumption.
  - now apply sockets_none.
  - change (marks (reason ++ t) = primary_marks k). now rewrite marks_prints.
  - eexists _, [_]. cbn [heap nextTickQueue timers clock listenCalls trace exitCode].
    split; [reflexivity|]. split; [reflexivity|]. split; [reflexivity|].
    split; [each_event; split; [reflexivity|apply in_range_default]|].
    split; [reflexivity|]. split; [discriminate|].
    split; [cbn; now destruct (os n DEFAULT_PORT)|]. split; [reflexivity|now left].
Qed.

Lemma Sweep_turn p : Inv p -> Sweep p -> Sweep (turn os p).
Proof.
  intros HI HS. unfold turn. destruct (exitCode p) eqn:He; [assumption|].
  destruct p as [h q ts c n t e].
  cbn [heap nextTickQueue timers clock listenCalls trace exitCode] in *. subst e.
  destruct HI as [Hh Hp Ht | h0 early0 Hh Hearly (f0 & late0 & Hheap & Hf & Hts & Hq & Ht & Hl)];
    cbn [heap nextTickQueue timers clock listenCalls trace exitCode] in *.
  - (* Primary sweep *)
    destruct HS as [k Hk Hprim Hex Hclock Hmarks Hbound Htick Htimer
                   | k h1 early Hk Hnone Hmarks (f & late & Hheap' & Hfb & _)];
      cbn [heap nextTickQueue timers clock listenCalls trace exitCode] in *.
    2: { exfalso. subst h. eapply primary_fallback_clash; eassumption. }
    rewrite bound_heap in Hbound, Htick, Htimer.
    inversion Hp as [Eq Ets | tk Htk Eq Ets | due port rc Hport Eq Ets]; subst.
    + apply Sweep_primary with (k := k); try assumption; reflexivity.
    + destruct (lookup_lt_is_Some_2 h (tick_server tk) Htk) as [srv Hsrv].
      pose proof (proj1 (Forall_lookup _ _) Hh _ _ Hsrv) as Hsp.
      destruct tk as [s|s code]; cbn [tick_server run_tick] in *.
      * unfold emit_listening. cbn [heap nextTickQueue timers clock listenCalls trace exitCode].
        rewrite Hsrv.
        destruct (call_all_listening os EmptyString (listeningOnce srv)
                    (<[s := mkServer (requestListener srv) (handle srv) [] (errorListeners srv)]> h)
                    [] [] (elapsed k) n t None (primary_listening _ Hsp)) as (pr & Hpr & ->).
        cbn [snd]. apply Sweep_primary with (k := k);
          cbn [heap nextTickQueue timers clock listenCalls trace exitCode]; try reflexivity.
        -- assumption.
        -- apply Forall_insert; [assumption|]. cbn. apply Hsp.
        -- now rewrite marks_prints.
        -- rewrite bound_heap, last_listen_prints by assumption.
           rewrite (sockets_insert h s srv) by (assumption || reflexivity). exact Hbound.
        -- intros ? ? [].
        -- intros ? ? [].
      * destruct (Htick s code (or_introl eq_refl)) as (Hb & srv' & Hsrv' & Herr).
        rewrite Hsrv in Hsrv'. injection Hsrv' as <-.
        unfold emit_error. cbn [heap]. rewrite Hsrv, Herr.
        cbn [call_all]. unfold mbind, JS_bind.
        destruct (decide (code = EADDRINUSE)) as [->|Hne].
        -- destruct (decide (port_of k < MAX_PORT)) as [Hlt|Hge].
           ++ rewrite startServer_error_retry by assumption. cbn [mret JS_ret snd schedule].
              apply Sweep_primary with (k := k);
                cbn [heap nextTickQueue timers clock listenCalls trace exitCode];
                try assumption; try reflexivity.
              ** intros ? ? [].
              ** intros due cb [Hin|[]]. injection Hin as <- <-.
                 rewrite bound_heap. now repeat split.
           ++ rewrite startServer_error_exhausted by lia. cbn [mret JS_ret snd].
              apply switched_sweep; try assumption. now repeat constructor.
        -- rewrite startServer_error_other by assumption. cbn [mret JS_ret snd].
           apply switched_sweep; try assumption. now repeat constructor.
    + (* the retry timer *)
      destruct (Htimer due _ (or_introl eq_refl)) as (Hb & Hdue & Hcb).
      injection Hcb as -> ->.
      assert (Hk' : (S k <= 10)%nat) by (unfold port_of, DEFAULT_PORT, MAX_PORT in Hport; lia).
      rewrite startServer_timeout_spec, startServer_spec. cbn [snd].
      rewrite <- port_of_S. replace (Z.of_nat k + 1) with (Z.of_nat (S k)) by lia.
      apply Sweep_primary with (k := S k);
        cbn [heap nextTickQueue timers clock listenCalls trace exitCode]; try reflexivity.
      * assumption.
      * apply Forall_app. split; [assumption|]. now repeat constructor.
      * rewrite elapsed_S. exact Hdue.
      * cbn [marks omap mark]. unfold marks in Hmarks. cbn. rewrite Hmarks.
        replace (due - elapsed k) with (delay k) by lia. reflexivity.
      * rewrite bound_heap, omap_app, Hb. cbn. unfold socket. cbn.
        now destruct (os n (port_of (S k))).
      * intros s code [Hin|[]]. rewrite bound_heap, omap_app, Hb. cbn. unfold socket. cbn.
        destruct (os n (port_of (S k))); [discriminate|]. cbn in Hin. injection Hin as <- <-.
        split; [reflexivity|]. eexists. split; [apply list_lookup_middle; reflexivity|reflexivity].
      * intros ? ? [].
  - (* Fallback sweep *)
    destruct HS as [k Hk Hprim Hex Hclock Hmarks Hbound Htick Htimer
                   | k h1 early Hk Hnone Hmarks HFS];
      cbn [heap nextTickQueue timers clock listenCalls trace exitCode] in *.
    { exfalso. subst h. apply Forall_app in Hprim as [_ Hprim].
      apply Forall_cons in Hprim as [Hp _]. destruct Hf as (Hfb & _).
      rewrite Hp in Hfb. discriminate. }
    pose proof HFS as (f & late & Hheap' & Hfb & Ht' & Hl' & Hlen & Hne & Hhandle & Hc & Hexit).
    cbn [heap nextTickQueue timers clock listenCalls trace exitCode] in *.
    rewrite Hheap in Hheap'. apply app_inj_tail in Hheap' as [<- <-].
    subst h ts.
    destruct q as [|tk q];
      [apply Sweep_fallback with (k := k) (h := h0) (early := early); assumption|].
    apply Forall_cons in Hq as [Htk Hq].
    apply Sweep_fallback with (k := k) (h := h0) (early := early); try assumption.
    destruct tk as [s|s code]; cbn [tick_server run_tick] in *; subst s.
    + unfold emit_listening. cbn [heap nextTickQueue timers clock listenCalls trace exitCode].
      rewrite list_lookup_middle by reflexivity.
      rewrite insert_app_r_alt by lia. rewrite Nat.sub_diag. cbn [insert list_insert].
      destruct (call_all_listening os EmptyString (listeningOnce f0)
                  (h0 ++ [mkServer (requestListener f0) (handle f0) [] (errorListeners f0)])
                  q [] c n t None (fallback_listening_all _ _ Hf))
        as (pr & Hpr & ->).
      cbn [snd]. eexists _, (pr ++ late).
      cbn [heap nextTickQueue timers clock listenCalls trace exitCode].
      split; [reflexivity|]. split; [exact Hfb|]. split; [now rewrite Ht', app_assoc|].
      split; [apply Forall_app; split;
              [eapply Forall_impl; [exact Hpr|apply print_fallback]|assumption]|].
      rewrite answers_prints, last_listen_prints by assumption.
      split; [exact Hlen|]. split; [exact Hne|]. split; [exact Hhandle|].
      split; [exact Hc|now left].
    + unfold emit_error. cbn [heap]. rewrite list_lookup_middle by reflexivity.
      pose proof Hf as (_ & Hnil & Hall & _).
      assert (Hstart : fallback_sweep h0 early (elapsed k)
                         (mkProcess (h0 ++ [f0]) q [] c n t None)).
      { exists f0, late. cbn [heap nextTickQueue timers clock listenCalls trace exitCode].
        split; [reflexivity|]. split; [exact Hfb|]. split; [exact Ht'|].
        split; [exact Hl'|]. split; [exact Hlen|]. split; [exact Hne|].
        split; [exact Hhandle|]. split; [exact Hc|now left]. }
      pose proof (call_all_fallback_sweep h0 early (elapsed k) code _ _ Hall Hstart) as Hres.
      destruct (errorListeners f0) as [|l ls]; [contradiction|]. exact Hres.
Qed.

Lemma Sweep_execute n : Sweep (execute os n).
Proof.
  induction n as [|n IH]; [apply Sweep_boot|].
  rewrite execute_S. apply Sweep_turn; [apply Inv_execute|exact IH].
Qed.

End SweepInvariant.

(** ** What holds in every run *)

Section EveryRun.

Variable os : nat -> Z -> ListenResult.

Lemma omap_rev {A B} (f : A -> option B) (l : list A) : omap f (rev l) = rev (omap f l).
Proof.
  induction l as [|x l IH]; [reflexivity|].
  cbn [rev]. rewrite omap_app, IH.
  change (omap f (x :: l)) with (match f x with Some y => y :: omap f l | None => omap f l end).
  change (omap f [x]) with (match f x with Some y => [y] | None => [] end).
  destruct (f x); [reflexivity|apply app_nil_r].
Qed.

Lemma listens_marks t : listens t = omap tried (marks t).
Proof.
  unfold listens, marks. induction t as [|e t IH]; [reflexivity|].
  destruct e; cbn; now rewrite ?IH.
Qed.

Lemma waits_marks t : waits t = omap waited (marks t).
Proof.
  unfold waits, marks. induction t as [|e t IH]; [reflexivity|].
  destruct e; cbn; now rewrite ?IH.
Qed.

Lemma waits_fallback es : Forall fallback_event es -> waits es = [].
Proof.
  induction 1 as [|e es He _ IH]; [reflexivity|].
  destruct e; cbn in *; try assumption. contradiction.
Qed.

Lemma primary_marks_listens k :
  (k <= 10)%nat ->
  rev (omap tried (primary_marks k))
    = map (fun q => (Primary, q)) (seqZ 3000 (Z.of_nat k + 1)).
Proof. intros Hk. do 11 (destruct k as [|k]; [vm_compute; reflexivity|]). lia. Qed.

Lemma primary_marks_waits k :
  (k <= 10)%nat ->
  rev (omap waited (primary_marks k))
    = map (fun i => 1000 * 2 ^ i) (seqZ 0 (Z.of_nat k)).
Proof. intros Hk. do 11 (destruct k as [|k]; [vm_compute; reflexivity|]). lia. Qed.

Lemma primary_marks_total k :
  (k <= 10)%nat ->
  total (rev (omap waited (primary_marks k))) = elapsed k /\ 0 <= elapsed k <= 1023000.
Proof.
  intros Hk.
  do 11 (destruct k as [|k]; [vm_compute; repeat split; discriminate|]). lia.
Qed.

(** What [Sweep] says about the trace, in either phase. *)
Lemma Sweep_trace p :
  Sweep p ->
  exists k late early,
    (k <= 10)%nat /\ trace p = late ++ early /\ marks early = primary_marks k /\
    Forall fallback_event late /\ clock p = elapsed k.
Proof.
  intros [k Hk _ _ Hc Hm _ _ _ | k h early Hk _ Hm (f & late & _ & _ & Ht & Hl & _ & _ & _ & Hc & _)].
  - exists k, [], (trace p). now repeat split.
  - exists k, late, early. now repeat split.
Qed.

(** X1. In every run the Express attempts are the ports 3000, 3001, ...,
    3000+k for some k <= 10, in this order and once each; every bind attempt
    after them is a Fallback one; and the waits of the whole run are exactly
    1000 * 2^i for i = 0 .. k-1, in this order. *)
Theorem primary_sweep_is_sequential (n : nat) :
  exists (k : nat) (fallback_part : list (Strategy * Z)),
    (k <= 10)%nat /\
    listens (history (execute os n))
      = map (fun q => (Primary, q)) (seqZ 3000 (Z.of_nat k + 1)) ++ fallback_part /\
    Forall (fun s => s = Fallback) (map fst fallback_part) /\
    waits (history (execute os n)) = map (fun i => 1000 * 2 ^ i) (seqZ 0 (Z.of_nat k)).
Proof.
  destruct (Sweep_trace _ (Sweep_execute os n)) as (k & late & early & Hk & Ht & Hm & Hl & _).
  exists k, (listens (rev late)). unfold history. rewrite Ht, rev_app_distr.
  split; [assumption|]. split; [|split].
  - unfold listens at 1. rewrite omap_app. fold (listens (rev early)) (listens (rev late)).
    f_equal. unfold listens at 1. rewrite omap_rev. fold (listens early).
    rewrite listens_marks, Hm. now apply primary_marks_listens.
  - apply listens_fallback, List.Forall_rev, Hl.
  - unfold waits at 1. rewrite omap_app. fold (waits (rev early)) (waits (rev late)).
    rewrite (waits_fallback (rev late)) by (apply List.Forall_rev, Hl).
    rewrite app_nil_r. unfold waits. rewrite omap_rev. fold (waits early).
    rewrite waits_marks, Hm. now apply primary_marks_waits.
Qed.

(** X2. In every run the time the process has spent waiting is the sum of
    its backoff delays, and it never exceeds 1 023 000 ms. *)
Theorem total_backoff_is_bounded (n : nat) :
  clock (execute os n) = total (waits (history (execute os n))) /\
  0 <= clock (execute os n) <= 1023000.
Proof.
  destruct (Sweep_trace _ (Sweep_execute os n)) as (k & late & early & Hk & Ht & Hm & Hl & Hc).
  destruct (primary_marks_total k Hk) as [Htot Hb].
  rewrite Hc. split; [|exact Hb].
  unfold history. rewrite Ht, rev_app_distr.
  unfold waits at 1. rewrite omap_app. fold (waits (rev early)) (waits (rev late)).
  rewrite (waits_fallback (rev late)) by (apply List.Forall_rev, Hl).
  rewrite app_nil_r. unfold waits. rewrite omap_rev. fold (waits early).
  rewrite waits_marks, Hm. now rewrite Htot.
Qed.

Lemma answers_In t s port r : In (s, port, r) (answers t) -> In (Listen s port r) t.
Proof.
  induction t as [|e t IH]; [intros []|].
  destruct e; cbn; try (intros H; right; now apply IH).
  intros [H|H]; [left; now injection H as -> -> ->|right; now apply IH].
Qed.

(** X3. The process exits only with status 1, and only after it has
    switched to the bare http server: a run that has made no Fallback bind
    attempt is still running. *)
Theorem exit_only_from_fallback (n : nat) (status : Z) :
  exitCode (execute os n) = Some status ->
  status = 1 /\ exists port r, In (Listen Fallback port r) (history (execute os n)).
Proof.
  intros He.
  destruct (Sweep_execute os n)
    as [k _ _ Hex _ _ _ _ _
       | k h early _ _ _ (f & late & _ & _ & Ht & Hl & _ & Hne & _ & _ & Hexit)].
  - rewrite Hex in He. discriminate.
  - split.
    + destruct Hexit as [Hx|Hx]; rewrite Hx in He; [discriminate|now injection He as <-].
    + destruct (answers late) as [|[[s port] r] rest] eqn:Ha; [contradiction|].
      assert (Hin : In (Listen s port r) late)
        by (apply answers_In; rewrite Ha; now left).
      pose proof (proj1 (List.Forall_forall _ _) Hl _ Hin) as [-> _].
      exists port, r. unfold history. rewrite Ht. apply in_rev. rewrite rev_involutive.
      apply in_or_app. now left.
Qed.

End EveryRun.

Section EveryRunHeap.

Variable os : nat -> Z -> ListenResult.

Lemma tries_app s a b : tries s (a ++ b) = (tries s a + tries s b)%nat.
Proof.
  induction a as [|m a IH]; [reflexivity|].
  destruct m as [s' port|ms]; cbn; [|exact IH].
  destruct (decide (s' = s)); cbn; now rewrite IH.
Qed.

Lemma tries_primary_marks k : tries Fallback (primary_marks k) = 0%nat.
Proof. induction k as [|k IH]; [reflexivity|exact IH]. Qed.

Lemma tries_fallback_events late :
  Forall fallback_event late -> tries Fallback (marks late) = length (answers late).
Proof.
  induction 1 as [|e late He _ IH]; [reflexivity|].
  destruct e; cbn in *; try exact IH; try contradiction.
  destruct He as [-> _]. rewrite decide_True by reflexivity. cbn. now f_equal.
Qed.

(** X4. In every run each Express server has exactly one 'error' listener,
    while the one fallback server has as many 'error' listeners as listen
    calls were made through the Fallback strategy: none is ever removed. *)
Theorem listeners_pile_up_on_fallback (n : nat) (srv : Server) :
  In srv (heap (execute os n)) ->
  match requestListener srv with
  | Primary => length (errorListeners srv) = 1%nat
  | Fallback => length (errorListeners srv) = tries_of Fallback (execute os n)
  end.
Proof.
  pose proof (Inv_execute os n) as HI. pose proof (Sweep_execute os n) as HS.
  revert HI HS. unfold tries_of. generalize (execute os n). intros p HI HS Hin.
  assert (Hprimary : forall h, Forall primary_server h -> In srv h ->
            match requestListener srv with
            | Primary => length (errorListeners srv) = 1%nat
            | Fallback => length (errorListeners srv) = tries Fallback (marks (trace p))
            end).
  { intros h Hh Hs. apply (proj1 (List.Forall_forall _ _) Hh) in Hs.
    destruct Hs as (-> & (port & rc & _ & ->) & _). reflexivity. }
  destruct HI as [Hh _ _ | h0 early0 Hh _ (f0 & late0 & Hheap & Hf & _)].
  - now apply Hprimary with (h := heap p).
  - rewrite Hheap in Hin. apply in_app_or in Hin as [Hin|[<-|[]]].
    + now apply Hprimary with (h := h0).
    + destruct HS as [k _ Hprim _ _ _ _ _ _
                     | k h early _ _ Hm (f & late & Hheap' & Hfb & Ht & Hl & Hlen & _)].
      * exfalso. rewrite Hheap in Hprim. apply Forall_app in Hprim as [_ Hprim].
        apply Forall_cons in Hprim as [Hp _]. destruct Hf as (Hfb & _).
        rewrite Hp in Hfb. discriminate.
      * rewrite Hheap in Hheap'. apply app_inj_tail in Hheap' as [_ <-].
        rewrite Hfb, Hlen, Ht. unfold marks. rewrite omap_app. fold (marks late) (marks early).
        rewrite tries_app, Hm, tries_primary_marks, tries_fallback_events by assumption. lia.
Qed.

Lemma last_listen_app late early :
  answers late <> [] -> last_listen (late ++ early) = last_listen late.
Proof.
  intros Hne. unfold last_listen, answers in *. rewrite omap_app.
  now destruct (omap _ late).
Qed.

(** X5. In every run the process holds at most one socket: the one of its
    most recent listen call when that call succeeded, and none otherwise. *)
Theorem holds_socket_of_last_listen (n : nat) :
  bound (execute os n) = bound_of (last_listen (trace (execute os n))).
Proof.
  destruct (Sweep_execute os n)
    as [k _ _ _ _ _ Hb _ _
       | k h early _ Hnone _ (f & late & Hheap & Hfb & Ht & Hl & _ & Hne & Hhandle & _)].
  - exact Hb.
  - unfold bound. rewrite Hheap, Ht, omap_app, last_listen_app by assumption.
    fold socket. rewrite (sockets_of_none h Hnone). cbn. unfold socket at 1.
    rewrite Hhandle, Hfb. unfold last_listen in *.
    destruct (answers late) as [|[[s port] r] rest] eqn:Ha; [contradiction|].
    assert (Hin : In (Listen s port r) late) by (apply answers_In; rewrite Ha; now left).
    pose proof (proj1 (List.Forall_forall _ _) Hl _ Hin) as [-> _].
    cbn. now destruct r.
Qed.

Lemma failed_trace_listens k :
  (k <= 10)%nat ->
  listens (rev (failed_trace k)) = map (fun q => (Primary, q)) (seqZ 3000 (Z.of_nat k)) /\
  waits (rev (failed_trace k)) = map (fun i => 1000 * 2 ^ i) (seqZ 0 (Z.of_nat k)).
Proof. intros Hk. do 11 (destruct k as [|k]; [vm_compute; split; reflexivity|]). lia. Qed.

(** X6. If the attempts 0..k-1 fail with conflicts and attempt k (on port
    3000+k) fails with another error, then right after that error is
    dispatched the history ends with the failed attempt, one console.error
    output that starts with Server error:, the two fallback lines and the
    first Fallback attempt on 3000; before it lie the attempts on
    3000..3000+k-1 and the k backoff waits, and no port above 3000+k was
    tried. *)
Theorem other_error_ends_primary_sweep (k : nat) (code : string) :
  (k <= 10)%nat ->
  (forall j, (j < k)%nat -> os j (port_of j) = ListenErr EADDRINUSE) ->
  os k (port_of k) = ListenErr code ->
  code <> EADDRINUSE ->
  exists before detail,
    history (execute os (S (2 * k))) =
    before ++ [Listen Primary (port_of k) (ListenErr code);
               ConsoleError ("Server error: " +:+ detail);
               ConsoleLog ATTEMPTING_FALLBACK;
               ConsoleLog "Initializing native HTTP server fallback...";
               Listen Fallback DEFAULT_PORT (os (S k) DEFAULT_PORT)] /\
    listens before = map (fun q => (Primary, q)) (seqZ 3000 (Z.of_nat k)) /\
    waits before = map (fun i => 1000 * 2 ^ i) (seqZ 0 (Z.of_nat k)).
Proof.
  intros Hk Hbusy Herr Hcode. exists (rev (failed_trace k)), code.
  split; [|now apply failed_trace_listens].
  rewrite execute_S, sweep.
  - rewrite Herr. unfold attempting, turn.
    cbn [heap nextTickQueue timers clock listenCalls trace exitCode tick_of run_tick].
    unfold emit_error. cbn [heap].
    rewrite list_lookup_middle by (now rewrite length_failed_servers).
    cbn [primary_attempt errorListeners call_all]. unfold mbind, JS_bind.
    rewrite startServer_error_other by assumption.
    cbn [mret JS_ret snd]. unfold switched, history, switch_trace.
    cbn [trace app rev]. rewrite <- !app_assoc. reflexivity.
  - unfold port_of, DEFAULT_PORT, MAX_PORT. lia.
  - exact Hbusy.
Qed.

End EveryRunHeap.

(** ** The Fallback sweep when a port has become free *)

Section Freed.

Variable os : nat -> Z -> ListenResult.

Lemma run_fixed n p : turn os p = p -> run os n p = p.
Proof. intros H. induction n as [|n IH]; [reflexivity|]. cbn [run]. now rewrite H. Qed.

Lemma idle_fixed p : nextTickQueue p = [] -> timers p = [] -> turn os p = p.
Proof. intros Hq Ht. unfold turn. rewrite Hq, Ht. now destruct (exitCode p). Qed.

Lemma settled_from N m :
  (N <= m)%nat ->
  exitCode (execute os N) <> None \/
  (nextTickQueue (execute os N) = [] /\ timers (execute os N) = []) ->
  execute os m = execute os N.
Proof.
  intros Hm H. replace m with (N + (m - N))%nat by lia. rewrite execute_add.
  destruct H as [H|[Hq Ht]].
  - destruct (exitCode (execute os N)) eqn:He; [|contradiction].
    eapply run_exited. exact He.
  - apply run_fixed. now apply idle_fixed.
Qed.

End Freed.

Lemma freed_3000_or_3001 p :
  p = 3000 \/ p = 3001 ->
  bound (execute (freed_after_sweep p) 23) = [(Fallback, p)] /\
  exitCode (execute (freed_after_sweep p) 23) = None /\
  nextTickQueue (execute (freed_after_sweep p) 23) = [] /\
  timers (execute (freed_after_sweep p) 23) = [].
Proof. intros [-> | ->]; vm_compute; now repeat split. Qed.

Lemma freed_beyond_3001 p :
  3002 <= p <= 3010 ->
  exitCode (execute (freed_after_sweep p) 32) = Some 1 /\
  head (trace (execute (freed_after_sweep p) 32)) = Some (Uncaught "ERR_SERVER_ALREADY_LISTEN") /\
  bound (execute (freed_after_sweep p) 32) = [(Fallback, p)].
Proof.
  intros Hp.
  assert (H : p = 3002 \/ p = 3003 \/ p = 3004 \/ p = 3005 \/ p = 3006 \/ p = 3007
              \/ p = 3008 \/ p = 3009 \/ p = 3010) by lia.
  repeat (destruct H as [-> | H]; [vm_compute; now repeat split|]).
  subst p. vm_compute. now repeat split.
Qed.

Section FreedClaims.

Variable os : nat -> Z -> ListenResult.

(** X7. If the eleven Express attempts fail with conflicts and, from then
    on, the ports below p are occupied and the others free, with p = 3000 or
    p = 3001, then the bare http server binds p and the process serves on it
    from then on. *)
Theorem fallback_serves_on_first_two_ports (p : Z) :
  p = 3000 \/ p = 3001 ->
  (forall n q, in_range q -> os n q = freed_after_sweep p n q) ->
  exists turns, forall m, (turns <= m)%nat ->
    bound (execute os m) = [(Fallback, p)] /\ exitCode (execute os m) = None.
Proof.
  intros Hp Hos. exists 23%nat. intros m Hm.
  rewrite (execute_agree os (freed_after_sweep p)) by assumption.
  destruct (freed_3000_or_3001 p Hp) as (Hb & He & Hq & Ht).
  rewrite (settled_from (freed_after_sweep p) 23 m Hm (or_intror (conj Hq Ht))).
  split; assumption.
Qed.

(** X8. In the same situation with 3002 <= p <= 3010 the bare http server
    does bind p, but a listener left over from an earlier port then calls
    listen on the bound server: the process ends with the uncaught error
    ERR_SERVER_ALREADY_LISTEN and exit status 1 instead of serving. *)
Theorem fallback_dies_beyond_second_port (p : Z) :
  3002 <= p <= 3010 ->
  (forall n q, in_range q -> os n q = freed_after_sweep p n q) ->
  exists turns, forall m, (turns <= m)%nat ->
    exitCode (execute os m) = Some 1 /\
    head (trace (execute os m)) = Some (Uncaught "ERR_SERVER_ALREADY_LISTEN") /\
    bound (execute os m) = [(Fallback, p)].
Proof.
  intros Hp Hos. exists 32%nat. intros m Hm.
  rewrite (execute_agree os (freed_after_sweep p)) by assumption.
  destruct (freed_beyond_3001 p Hp) as (He & Hh & Hb).
  assert (Hx : exitCode (execute (freed_after_sweep p) 32) <> None)
    by (rewrite He; discriminate).
  rewrite (settled_from (freed_after_sweep p) 32 m Hm (or_introl Hx)).
  split; [assumption|]. split; assumption.
Qed.

End FreedClaims.

(** ** Witnesses of the run properties *)

Lemma exit_only_from_fallback_witness :
  exitCode (execute all_busy 32) = Some 1 /\
  (1 = 1 /\ exists port r, In (Listen Fallback port r) (history (execute all_busy 32))).
Proof.
  assert (H : exitCode (execute all_busy 32) = Some 1) by (vm_compute; reflexivity).
  split; [exact H|]. exact (exit_only_from_fallback all_busy 32 1 H).
Defined.

Lemma listeners_pile_up_on_fallback_witness :
  In (mkServer Fallback (Some 3000) [fallback_listening 3000] [fallback_error 1 3000])
     (heap (execute first_denied 1)) /\
  length [fallback_error 1 3000] = tries_of Fallback (execute first_denied 1).
Proof.
  assert (H : In (mkServer Fallback (Some 3000) [fallback_listening 3000]
                           [fallback_error 1 3000])
                 (heap (execute first_denied 1)))
    by (right; left; reflexivity).
  split; [exact H|]. exact (listeners_pile_up_on_fallback first_denied 1 _ H).
Defined.

Lemma other_error_ends_primary_sweep_witness :
  (2 <= 10)%nat /\
  (forall j, (j < 2)%nat -> denied_at 2 j (port_of j) = ListenErr EADDRINUSE) /\
  denied_at 2 2 (port_of 2) = ListenErr "EACCES" /\
  "EACCES" <> EADDRINUSE /\
  exists before detail,
    history (execute (denied_at 2) (S (2 * 2))) =
    before ++ [Listen Primary (port_of 2) (ListenErr "EACCES");
               ConsoleError ("Server error: " +:+ detail);
               ConsoleLog ATTEMPTING_FALLBACK;
               ConsoleLog "Initializing native HTTP server fallback...";
               Listen Fallback DEFAULT_PORT (denied_at 2 3 DEFAULT_PORT)] /\
    listens before = map (fun q => (Primary, q)) (seqZ 3000 (Z.of_nat 2)) /\
    waits before = map (fun i => 1000 * 2 ^ i) (seqZ 0 (Z.of_nat 2)).
Proof.
  assert (H1 : (2 <= 10)%nat) by lia.
  assert (H2 : forall j, (j < 2)%nat -> denied_at 2 j (port_of j) = ListenErr EADDRINUSE).
  { intros j Hj. destruct j as [|[|j]]; [reflexivity|reflexivity|lia]. }
  assert (H3 : denied_at 2 2 (port_of 2) = ListenErr "EACCES") by reflexivity.
  assert (H4 : "EACCES" <> EADDRINUSE) by discriminate.
  split; [exact H1|]. split; [exact H2|]. split; [exact H3|]. split; [exact H4|].
  exact (other_error_ends_primary_sweep (denied_at 2) 2 "EACCES" H1 H2 H3 H4).
Defined.

Lemma fallback_serves_on_first_two_ports_witness :
  (3001 = 3000 \/ 3001 = 3001) /\
  (forall n q, in_range q -> freed_after_sweep 3001 n q = freed_after_sweep 3001 n q) /\
  exists turns, forall m, (turns <= m)%nat ->
    bound (execute (freed_after_sweep 3001) m) = [(Fallback, 3001)] /\
    exitCode (execute (freed_after_sweep 3001) m) = None.
Proof.
  assert (H1 : 3001 = 3000 \/ 3001 = 3001) by (right; reflexivity).
  assert (H2 : forall (n : nat) q, in_range q ->
                 freed_after_sweep 3001 n q = freed_after_sweep 3001 n q) by reflexivity.
  split; [exact H1|]. split; [exact H2|].
  exact (fallback_serves_on_first_two_ports (freed_after_sweep 3001) 3001 H1 H2).
Defined.

Lemma fallback_dies_beyond_second_port_witness :
  3002 <= 3002 <= 3010 /\
  (forall n q, in_range q -> freed_after_sweep 3002 n q = freed_after_sweep 3002 n q) /\
  exists turns, forall m, (turns <= m)%nat ->
    exitCode (execute (freed_after_sweep 3002) m) = Some 1 /\
    head (trace (execute (freed_after_sweep 3002) m))
      = Some (Uncaught "ERR_SERVER_ALREADY_LISTEN") /\
    bound (execute (freed_after_sweep 3002) m) = [(Fallback, 3002)].
Proof.
  assert (H1 : 3002 <= 3002 <= 3010) by lia.
  assert (H2 : forall (n : nat) q, in_range q ->
                 freed_after_sweep 3002 n q = freed_after_sweep 3002 n q) by reflexivity.
  split; [exact H1|]. split; [exact H2|].
  exact (fallback_dies_beyond_second_port (freed_after_sweep 3002) 3002 H1 H2).
Defined.

(** ** Every run settles *)

Section Termination.

Variable os : nat -> Z -> ListenResult.

(** A listener of the fallback server that runs while the server holds a
    socket ends the process: listen throws, or the listener exits. *)
Lemma exit_when_bound h f port0 port code q ts c n t e :
  handle f = Some port0 ->
  (call os (fallback_error (length h) port) code (mkProcess (h ++ [f]) q ts c n t e)).1 = None /\
  exitCode (call os (fallback_error (length h) port) code
                 (mkProcess (h ++ [f]) q ts c n t e)).2 = Some 1.
Proof.
  intros Hf.
  destruct (decide (code = EADDRINUSE /\ port < MAX_PORT)) as [[-> Hlt]|Hn].
  - rewrite fallback_error_next by assumption.
    rewrite startHttpServerWithFallback_spec, Hf. now split.
  - rewrite fallback_error_fatal; [now split|].
    destruct (decide (code = EADDRINUSE)); [right|left]; [|assumption].
    destruct (decide (port < MAX_PORT)); [|lia]. exfalso. apply Hn. now split.
Qed.

Lemma last_cons_cons {A} (x y : A) l : last (x :: y :: l) = last (y :: l).
Proof. reflexivity. Qed.

(** One dispatched 'error' event on a fallback server without a socket:
    the process exits, or every listener ran and left one more listener and
    one more deferred event each. *)
Lemma emission h code ls :
  Forall (fallback_listener (length h)) ls ->
  forall f q c n t,
    handle f = None ->
    let p' := (call_all os ls code (mkProcess (h ++ [f]) q [] c n t None)).2 in
    exitCode p' = Some 1 \/
    (exitCode p' = None /\ timers p' = [] /\
     exists f', heap p' = h ++ [f'] /\
                emitted (length h) ls f f' q (nextTickQueue p')).
Proof.
  induction 1 as [|l rest (port & Hr & ->) Hrest IH]; intros f q c n t Hf p'.
  - right. subst p'. cbn. repeat split. exists f. split; [reflexivity|].
    exists [], [], [], []. rewrite !app_nil_r.
    split; [reflexivity|]. split; [reflexivity|]. split; [reflexivity|].
    split; [constructor|]. split; [constructor|]. split; [reflexivity|].
    split; [intros ? []|]. split; [reflexivity|]. split; [reflexivity|].
    split; [split; [constructor|left; now split]|].
    intros port Hp. rewrite Hf in Hp. discriminate.
  - subst p'. cbn [call_all]. unfold mbind, JS_bind.
    destruct (decide (code = EADDRINUSE /\ port < MAX_PORT)) as [[-> Hlt]|Hn].
    2: { left. rewrite fallback_error_fatal; [reflexivity|].
         destruct (decide (code = EADDRINUSE)); [right|left]; [|assumption].
         destruct (decide (port < MAX_PORT)); [|lia]. exfalso. apply Hn. now split. }
    rewrite fallback_error_next by assumption.
    rewrite startHttpServerWithFallback_spec, Hf.
    set (line := ConsoleLog _).
    destruct (os n (port + 1)) as [|code'] eqn:Hos; cbn [handle_of tick_of].
    + (* the port is free *)
      destruct rest as [|l' rest'].
      * right. cbn. repeat split. eexists. split; [reflexivity|].
        exists [fallback_error (length h) (port + 1)], [fallback_listening (port + 1)],
               [], [emitListeningNT (length h)].
        cbn [errorListeners listeningOnce requestListener handle app length].
        repeat split; try (repeat constructor; fail).
        -- constructor; [|constructor]. exists (port + 1). split; [|reflexivity].
           unfold in_range in *. lia.
        -- intros port' [Hin|[]]. injection Hin as <-. now left.
        -- right. split; [reflexivity|]. now eexists.
        -- intros port' Hp. injection Hp as <-. now exists port.
      * left. apply Forall_cons in Hrest as [(port' & _ & ->) _].
        cbn [call_all]. unfold mbind, JS_bind.
        match goal with
        | |- context [call os (fallback_error _ ?pt) ?cd (mkProcess (h ++ [?srv]) ?q0 ?ts0 ?c0 ?n0 ?t0 ?e0)] =>
            destruct (exit_when_bound h srv (port + 1) pt cd q0 ts0 c0 n0 t0 e0 eq_refl)
              as [Hnone Hexit];
            destruct (call os (fallback_error _ pt) cd (mkProcess (h ++ [srv]) q0 ts0 c0 n0 t0 e0))
              as [[[]|] p1]
        end; [discriminate Hnone|exact Hexit].
    + (* the port is taken, or another error *)
      match goal with
      | |- context [call_all os rest EADDRINUSE (mkProcess (h ++ [?srv]) ?q0 [] ?c0 ?n0 ?t0 None)] =>
          destruct (IH srv q0 c0 n0 t0 eq_refl) as [Hexit|(He & Hts & f' & Hheap & Hem)]
      end; [now left|]. right.
      split; [exact He|]. split; [exact Hts|]. exists f'. split; [exact Hheap|].
      destruct Hem as (added & once & errs & tail & Ha & Ho & Hrl & Honce & Hadded & Hlen
                       & Hnext & Hq & Hlq & Hshape & Hlast).
      cbn [errorListeners listeningOnce requestListener] in Ha, Ho, Hrl.
      exists (fallback_error (length h) (port + 1) :: added),
             (fallback_listening (port + 1) :: once),
             (emitErrorNT (length h) code' :: errs), tail.
      split; [now rewrite Ha, <- app_assoc|]. split; [now rewrite Ho, <- app_assoc|].
      split; [exact Hrl|]. split; [now constructor|]. split.
      { constructor; [|assumption]. exists (port + 1). split; [|reflexivity].
        unfold in_range in *. lia. }
      split; [cbn; now rewrite Hlen|]. split.
      { intros port' [Hin|Hin]; [injection Hin as <-; now left|right; now apply Hnext]. }
      split; [now rewrite Hq, <- !app_assoc|]. split; [cbn in *; now rewrite Hlq|]. split.
      { destruct Hshape as [He' Ht']. split; [|exact Ht'].
        constructor; [now eexists|assumption]. }
      intros port' Hp. destruct (Hlast port' Hp) as (port0 & Hl0 & ->).
      exists port0. split; [|reflexivity].
      destruct rest as [|l' rest']; [discriminate Hl0|]. now rewrite last_cons_cons.
Qed.

Lemma exited_is_fixed p status : exitCode p = Some status -> turn os p = p.
Proof. intros He. unfold turn. now rewrite He. Qed.

(** One turn of a running Fallback sweep. *)
Lemma fallback_turn j h p :
  Forall (fun srv => handle srv = None) h ->
  fallback_running j h p ->
  fallback_finished h (turn os p) \/ fallback_running (S j) h (turn os p).
Proof.
  intros Hh (He & Hts & f & errs & tail & Hheap & Hrl & Hq & Hne & [Herrs Htail] & Hport
             & Hls & Honce & (pm & Hpm & Hin) & Hlen & Hzero & Htwo).
  destruct p as [hp q ts c n t e].
  cbn [heap nextTickQueue timers clock listenCalls trace exitCode] in *. subst hp q ts e.
  unfold turn. cbn [heap nextTickQueue timers clock listenCalls trace exitCode].
  destruct errs as [|tk errs'].
  - (* only 'listening' is pending *)
    left. destruct Htail as [[-> _]|[-> (port & Hhandle)]]; [now destruct Hne|].
    assert (Hj : (j <= 1)%nat)
      by (destruct (le_lt_dec j 1) as [|Hgt]; [assumption|]; now destruct (Htwo Hgt)).
    cbn [app run_tick]. unfold emit_listening.
    cbn [heap nextTickQueue timers clock listenCalls trace exitCode].
    rewrite list_lookup_middle by reflexivity.
    rewrite insert_app_r_alt by lia. rewrite Nat.sub_diag. cbn [insert list_insert].
    destruct (call_all_listening os EmptyString (listeningOnce f)
                (h ++ [mkServer (requestListener f) (handle f) [] (errorListeners f)])
                [] [] c n t None Honce) as (pr & Hpr & ->).
    cbn [snd]. right. cbn [heap nextTickQueue timers clock listenCalls trace exitCode].
    repeat split. eexists _, port. cbn [requestListener handle].
    repeat split; try assumption. specialize (Hport port Hj Hhandle). lia.
  - (* an 'error' event is dispatched *)
    apply Forall_cons in Herrs as [[code ->] Herrs].
    cbn [app run_tick]. unfold emit_error. cbn [heap].
    rewrite list_lookup_middle by reflexivity.
    destruct (errorListeners f) as [|l ls] eqn:Hlisteners; [cbn in Hlen; lia|].
    destruct Htail as [[-> Hnone]|[-> (port & Hhandle)]].
    + (* no socket yet: every listener runs *)
      rewrite app_nil_r in *.
      pose proof (emission h code (l :: ls) Hls f errs' c n t Hnone) as Hem.
      cbn zeta in Hem. destruct Hem as [Hexit|(He' & Hts' & f' & Hheap' & Hem)];
        [left; now left|].
      right. split; [exact He'|]. split; [exact Hts'|].
      destruct Hem as (added & once & errs2 & tail2 & Ha & Ho & Hrl' & Honce' & Hadded & Hla
                       & Hnext & Hq' & Hlq & [Herrs2 Htail2] & Hlast).
      exists f', (errs' ++ errs2), tail2.
      split; [exact Hheap'|]. split; [now rewrite Hrl'|].
      split; [now rewrite Hq', <- app_assoc|]. split.
      { rewrite Hq'. intros Hnil. apply app_eq_nil in Hnil as [_ Hnil].
        rewrite Hnil in Hlq. cbn in Hlq. lia. }
      split; [split; [now apply Forall_app|exact Htail2]|]. split.
      { intros port HSj Hp. destruct (Hlast port Hp) as (port0 & Hl0 & ->).
        assert (j = 0)%nat as -> by lia. specialize (Hzero eq_refl).
        injection Hzero as -> ->. cbn in Hl0. injection Hl0 as <-.
        unfold DEFAULT_PORT. lia. }
      split; [rewrite Ha, Hlisteners; now apply Forall_app|].
      split; [rewrite Ho; now apply Forall_app|]. split.
      { exists (pm + 1). split; [lia|]. rewrite Ha. apply in_or_app. right. now apply Hnext. }
      split; [rewrite Ha, length_app, Hla, Hlisteners; lia|].
      split; [intros Hf'; discriminate Hf'|].
      intros HSj Hnil. apply app_eq_nil in Hnil as [_ ->].
      cbn in Hlq, Hlen.
      destruct Htail2 as [[-> _]|[-> _]]; cbn in Hlq; lia.
    + (* the server holds a socket: the first listener ends the process *)
      left. left. cbn [call_all]. unfold mbind, JS_bind.
      apply Forall_cons in Hls as [(port' & _ & ->) _].
      destruct (exit_when_bound h f port port' code (errs' ++ [emitListeningNT (length h)])
                  [] c n t None Hhandle) as [Hnone Hexit].
      destruct (call os (fallback_error (length h) port') code _) as [[[]|] p1];
        [discriminate Hnone|exact Hexit].
Qed.

Lemma finished_is_fixed h p : fallback_finished h p -> turn os p = p.
Proof.
  intros [He|(He & Hq & Hts & _)].
  - eapply exited_is_fixed, He.
  - now apply idle_fixed.
Qed.

Lemma running_bound j h p : fallback_running j h p -> (j <= 10)%nat.
Proof.
  intros (_ & _ & f & errs & tail & _ & _ & _ & _ & _ & _ & Hls & _ & (pm & Hpm & Hin) & _).
  apply (proj1 (List.Forall_forall _ _) Hls) in Hin. destruct Hin as (port & Hr & Heq).
  injection Heq as <-. unfold in_range, DEFAULT_PORT, MAX_PORT in Hr. lia.
Qed.

(** A running Fallback sweep is over after at most eleven more turns. *)
Lemma fallback_settles d : forall j h p,
  (j + d = 11)%nat ->
  Forall (fun srv => handle srv = None) h ->
  fallback_running j h p ->
  fallback_finished h (run os d p).
Proof.
  induction d as [|d IH]; intros j h p Hd Hh Hrun.
  - apply running_bound in Hrun. lia.
  - cbn [run]. destruct (fallback_turn j h p Hh Hrun) as [Hfin|Hnext].
    + rewrite run_fixed; [exact Hfin|]. now apply finished_is_fixed with (h := h).
    + apply IH with (j := S j); [lia|assumption|assumption].
Qed.

(** The Fallback sweep starts as a running one. *)
Lemma switched_running reason h c n t :
  fallback_running 0 h (switched os reason h [] [] c n t None).
Proof.
  unfold switched. split; [reflexivity|]. split; [reflexivity|].
  cbn [heap nextTickQueue timers clock listenCalls trace exitCode app].
  destruct (os n DEFAULT_PORT) as [|code] eqn:Hos; cbn [handle_of tick_of].
  - eexists _, [], [emitListeningNT (length h)].
    cbn [errorListeners listeningOnce requestListener handle app].
    split; [reflexivity|]. split; [reflexivity|]. split; [reflexivity|].
    split; [discriminate|]. split; [split; [constructor|right; split; [reflexivity|now eexists]]|].
    split; [intros port _ Hp; injection Hp as <-; reflexivity|].
    split; [constructor; [exists DEFAULT_PORT; split; [apply in_range_default|reflexivity]|constructor]|].
    split; [now repeat constructor|].
    split; [exists DEFAULT_PORT; split; [unfold DEFAULT_PORT; lia|now left]|].
    split; [cbn; lia|]. split; [reflexivity|lia].
  - eexists _, [emitErrorNT (length h) code], [].
    cbn [errorListeners listeningOnce requestListener handle app].
    split; [reflexivity|]. split; [reflexivity|]. split; [reflexivity|].
    split; [discriminate|].
    split; [split; [constructor; [now eexists|constructor]|left; now split]|].
    split; [intros port _ Hp; discriminate Hp|].
    split; [constructor; [exists DEFAULT_PORT; split; [apply in_range_default|reflexivity]|constructor]|].
    split; [now repeat constructor|].
    split; [exists DEFAULT_PORT; split; [unfold DEFAULT_PORT; lia|now left]|].
    split; [cbn; lia|]. split; [reflexivity|discriminate].
Qed.

Lemma failed_servers_unbound k : Forall (fun srv => handle srv = None) (failed_servers k).
Proof.
  induction k as [|k IH]; [constructor|].
  cbn [failed_servers]. apply Forall_app. split; [exact IH|]. now repeat constructor.
Qed.

(** The Primary sweep stops at the first attempt that is not a conflict. *)
Lemma first_answer K :
  (forall j, (j < K)%nat -> os j (port_of j) = conflict) \/
  exists k, (k < K)%nat /\ (forall j, (j < k)%nat -> os j (port_of j) = conflict) /\
            os k (port_of k) <> conflict.
Proof.
  induction K as [|K [IH|(k & Hk & Hb & Hne)]].
  - left. intros j Hj. lia.
  - destruct (os K (port_of K)) as [|code] eqn:HK.
    + right. exists K. split; [lia|]. split; [exact IH|]. rewrite HK. discriminate.
    + destruct (String.eqb_spec code EADDRINUSE) as [->|Hc].
      * left. intros j Hj. destruct (decide (j = K)) as [->|]; [exact HK|apply IH; lia].
      * right. exists K. split; [lia|]. split; [exact IH|]. rewrite HK.
        intros Heq. injection Heq as ->. now apply Hc.
  - right. exists k. split; [lia|]. now split.
Qed.

(** How the Primary sweep ends: the process serves through Express, or it
    has just switched to the bare http server, by turn 21 at the latest. *)
Lemma primary_outcome :
  exists k, (k <= 10)%nat /\
    (execute os (S (2 * k)) = serving k \/
     exists reason r n t,
       execute os (S (2 * k))
       = switched os reason (failed_servers k ++ [primary_attempt k (ListenErr r)])
                  [] [] (elapsed k) n t None).
Proof.
  destruct (first_answer 11) as [Hall|(k & Hk & Hb & Hne)].
  - exists 10%nat. split; [lia|]. right.
    rewrite execute_S, sweep by (try (intros; apply Hall; lia); vm_compute; discriminate).
    rewrite Hall by lia. unfold attempting, turn.
    cbn [heap nextTickQueue timers clock listenCalls trace exitCode tick_of conflict run_tick].
    unfold emit_error. cbn [heap].
    rewrite list_lookup_middle by (now rewrite length_failed_servers).
    cbn [primary_attempt errorListeners call_all]. unfold mbind, JS_bind.
    rewrite startServer_error_exhausted by (vm_compute; discriminate).
    cbn [mret JS_ret snd]. now eexists _, _, _, _.
  - exists k. split; [lia|].
    rewrite execute_S, sweep
      by (try exact Hb; unfold port_of, DEFAULT_PORT, MAX_PORT; lia).
    destruct (os k (port_of k)) as [|code] eqn:Hos.
    + left. apply attempt_free.
    + right. assert (Hc : code <> EADDRINUSE) by (intros ->; now apply Hne).
      unfold attempting, turn.
      cbn [heap nextTickQueue timers clock listenCalls trace exitCode tick_of run_tick].
      unfold emit_error. cbn [heap].
      rewrite list_lookup_middle by (now rewrite length_failed_servers).
      cbn [primary_attempt errorListeners call_all]. unfold mbind, JS_bind.
      rewrite startServer_error_other by assumption.
      cbn [mret JS_ret snd]. now eexists _, _, _, _.
Qed.

(** Every run ends in one of two ways, by turn 32 at the latest. *)
Lemma outcome :
  (exists k, (k <= 10)%nat /\ forall m, (S (2 * k) <= m)%nat -> execute os m = serving k) \/
  (exists h N, (N <= 32)%nat /\ fallback_finished h (execute os N) /\
               forall m, (N <= m)%nat -> execute os m = execute os N).
Proof.
  destruct primary_outcome as (k & Hk & [Hs|(reason & r & n & t & Hs)]).
  - left. exists k. split; [assumption|]. intros m Hm.
    replace m with (S (2 * k) + (m - S (2 * k)))%nat by lia.
    rewrite execute_add, Hs. apply serving_settled.
  - right.
    exists (failed_servers k ++ [primary_attempt k (ListenErr r)]), (S (2 * k) + 11)%nat.
    assert (Hfin : fallback_finished (failed_servers k ++ [primary_attempt k (ListenErr r)])
                     (execute os (S (2 * k) + 11))).
    { rewrite execute_add, Hs.
      apply fallback_settles with (j := 0%nat); [lia| |apply switched_running].
      apply Forall_app. split; [apply failed_servers_unbound|now repeat constructor]. }
    split; [lia|]. split; [exact Hfin|]. intros m Hm.
    replace m with ((S (2 * k) + 11) + (m - (S (2 * k) + 11)))%nat at 1 by lia.
    rewrite execute_add. apply run_fixed. eapply finished_is_fixed, Hfin.
Qed.

Lemma sockets_last (h : list Server) f port :
  Forall (fun srv => handle srv = None) h -> handle f = Some port ->
  omap socket (h ++ [f]) = [(requestListener f, port)].
Proof.
  intros Hh Hf. rewrite omap_app, (sockets_of_none h Hh). cbn. unfold socket. now rewrite Hf.
Qed.

(** X12. Every run settles within 32 turns of the event loop, whatever the
    operating system answers: from then on the process state no longer
    changes, and the process has either exited with status 1 or is running
    with nothing pending and exactly one listening socket. *)
Theorem every_run_settles (m : nat) :
  (32 <= m)%nat ->
  execute os m = execute os 32 /\
  (exitCode (execute os 32) = Some 1 \/
   (exitCode (execute os 32) = None /\ nextTickQueue (execute os 32) = [] /\
    timers (execute os 32) = [] /\ exists s port, bound (execute os 32) = [(s, port)])).
Proof.
  intros Hm. destruct outcome as [(k & Hk & Hs)|(h & N & HN & Hfin & Hs)].
  - rewrite !Hs by lia. split; [reflexivity|]. right.
    destruct (serving_facts k Hk) as (Hb & _).
    split; [reflexivity|]. split; [reflexivity|]. split; [reflexivity|].
    now exists Primary, (port_of k).
  - rewrite (Hs m), (Hs 32%nat) by lia. split; [reflexivity|].
    destruct Hfin as [He|(He & Hq & Hts & f & port & Hheap & Hrl & Hh & Hf & _)].
    + now left.
    + right. split; [exact He|]. split; [exact Hq|]. split; [exact Hts|].
      exists Fallback, port. unfold bound. fold socket.
      rewrite Hheap, (sockets_last h f port Hh Hf), Hrl. reflexivity.
Qed.

Lemma sockets_primary (h : list Server) :
  Forall primary_server h -> Forall (fun x => x.1 = Primary) (omap socket h).
Proof.
  induction 1 as [|srv h (Hp & _) _ IH]; [constructor|].
  cbn. unfold socket at 1. destruct (handle srv); [|exact IH].
  constructor; [exact Hp|exact IH].
Qed.

(** X13. Whenever the process serves through the bare http server (it is
    running, no event is pending, and the socket it holds is the fallback
    server's), the port is 3000 or 3001: no run ends up serving on a later
    port through the Fallback strategy. *)
Theorem fallback_serves_only_on_first_two_ports (n : nat) (port : Z) :
  exitCode (execute os n) = None ->
  nextTickQueue (execute os n) = [] ->
  bound (execute os n) = [(Fallback, port)] ->
  port = 3000 \/ port = 3001.
Proof.
  intros He Hq Hb.
  assert (Hts : timers (execute os n) = []).
  { destruct (Inv_execute os n) as [Hh _ _ | h early _ _ (f & late & _ & _ & Hts & _)];
      [|exact Hts].
    exfalso. apply sockets_primary in Hh. unfold bound in Hb. fold socket in Hb.
    rewrite Hb in Hh. apply Forall_cons in Hh as [Hx _]. discriminate Hx. }
  assert (Hfix : forall d, execute os (n + d) = execute os n)
    by (intros d; rewrite execute_add; apply run_fixed; now apply idle_fixed).
  destruct outcome as [(k & Hk & Hs)|(h & N & HN & Hfin & Hs)].
  - exfalso. rewrite <- (Hfix 32%nat), Hs in Hb by lia.
    destruct (serving_facts k Hk) as (Hb' & _). rewrite Hb' in Hb. discriminate Hb.
  - rewrite <- (Hfix 32%nat), Hs in He, Hb by lia.
    destruct Hfin as [Hx|(_ & _ & _ & f & port' & Hheap & Hrl & Hh & Hf & Hport)].
    + rewrite Hx in He. discriminate He.
    + unfold bound in Hb. fold socket in Hb.
      rewrite Hheap, (sockets_last h f port' Hh Hf) in Hb. injection Hb as _ <-.
      exact Hport.
Qed.

End Termination.

Lemma every_run_settles_witness :
  (32 <= 40)%nat /\
  execute all_busy 40 = execute all_busy 32 /\
  (exitCode (execute all_busy 32) = Some 1 \/
   (exitCode (execute all_busy 32) = None /\ nextTickQueue (execute all_busy 32) = [] /\
    timers (execute all_busy 32) = [] /\
    exists s port, bound (execute all_busy 32) = [(s, port)])).
Proof.
  assert (H : (32 <= 40)%nat) by lia.
  split; [exact H|]. exact (every_run_settles all_busy 40 H).
Defined.

Lemma fallback_serves_only_on_first_two_ports_witness :
  exitCode (execute (freed_after_sweep 3001) 23) = None /\
  nextTickQueue (execute (freed_after_sweep 3001) 23) = [] /\
  bound (execute (freed_after_sweep 3001) 23) = [(Fallback, 3001)] /\
  (3001 = 3000 \/ 3001 = 3001).
Proof.
  assert (H1 : exitCode (execute (freed_after_sweep 3001) 23) = None)
    by (vm_compute; reflexivity).
  assert (H2 : nextTickQueue (execute (freed_after_sweep 3001) 23) = [])
    by (vm_compute; reflexivity).
  assert (H3 : bound (execute (freed_after_sweep 3001) 23) = [(Fallback, 3001)])
    by (vm_compute; reflexivity).
  split; [exact H1|]. split; [exact H2|]. split; [exact H3|].
  exact (fallback_serves_only_on_first_two_ports (freed_after_sweep 3001) 23 3001 H1 H2 H3).
Defined.

(** ** What the console announces when the bare http server ends up serving *)

Section StaleBanner.

Variable os : nat -> Z -> ListenResult.

(** A dispatched 'error' event never leaves the fallback server serving:
    the process exits, or the sweep goes on. *)
Lemma error_turn j h p code rest :
  Forall (fun srv => handle srv = None) h ->
  fallback_running j h p ->
  nextTickQueue p = emitErrorNT (length h) code :: rest ->
  exitCode (turn os p) = Some 1 \/ fallback_running (S j) h (turn os p).
Proof.
  intros Hh (He & Hts & f & errs & tail & Hheap & Hrl & Hq & Hne & [Herrs Htail] & Hport
             & Hls & Honce & (pm & Hpm & Hin) & Hlen & Hzero & Htwo) Hhead.
  destruct p as [hp q ts c n t e].
  cbn [heap nextTickQueue timers clock listenCalls trace exitCode] in *. subst hp ts e.
  unfold turn. cbn [heap nextTickQueue timers clock listenCalls trace exitCode].
  rewrite Hhead. cbn [run_tick]. unfold emit_error. cbn [heap].
  rewrite list_lookup_middle by reflexivity.
  destruct (errorListeners f) as [|l ls] eqn:Hlisteners; [cbn in Hlen; lia|].
  destruct Htail as [[-> Hnone]|[-> (port & Hhandle)]].
  - rewrite app_nil_r in *. subst errs q.
    apply Forall_cons in Herrs as [_ Herrs].
    pose proof (emission os h code (l :: ls) Hls f rest c n t Hnone) as Hem.
    cbn zeta in Hem. destruct Hem as [Hexit|(He' & Hts' & f' & Hheap' & Hem)];
      [now left|].
    right. split; [exact He'|]. split; [exact Hts'|].
    destruct Hem as (added & once & errs2 & tail2 & Ha & Ho & Hrl' & Honce' & Hadded & Hla
                     & Hnext & Hq' & Hlq & [Herrs2 Htail2] & Hlast).
    exists f', (rest ++ errs2), tail2.
    split; [exact Hheap'|]. split; [now rewrite Hrl'|].
    split; [now rewrite Hq', <- app_assoc|]. split.
    { rewrite Hq'. intros Hnil. apply app_eq_nil in Hnil as [_ Hnil].
      rewrite Hnil in Hlq. cbn in Hlq. lia. }
    split; [split; [now apply Forall_app|exact Htail2]|]. split.
    { intros port HSj Hp. destruct (Hlast port Hp) as (port0 & Hl0 & ->).
      assert (j = 0)%nat as -> by lia. specialize (Hzero eq_refl).
      injection Hzero as -> ->. cbn in Hl0. injection Hl0 as <-.
      unfold DEFAULT_PORT. lia. }
    split; [rewrite Ha, Hlisteners; now apply Forall_app|].
    split; [rewrite Ho; now apply Forall_app|]. split.
    { exists (pm + 1). split; [lia|]. rewrite Ha. apply in_or_app. right. now apply Hnext. }
    split; [rewrite Ha, length_app, Hla, Hlisteners; lia|].
    split; [intros Hf'; discriminate Hf'|].
    intros HSj Hnil. apply app_eq_nil in Hnil as [_ ->].
    cbn in Hlq, Hlen.
    destruct Htail2 as [[-> _]|[-> _]]; cbn in Hlq; lia.
  - left. cbn [call_all]. unfold mbind, JS_bind.
    apply Forall_cons in Hls as [(port' & _ & ->) _].
    destruct (exit_when_bound os h f port port' code rest [] c n t None Hhandle)
      as [Hnone Hexit].
    destruct (call os (fallback_error (length h) port') code _) as [[[]|] p1];
      [discriminate Hnone|exact Hexit].
Qed.

(** Once the second 'error' event is pending, the sweep ends in an exit. *)
Lemma doomed d : forall j h p code rest,
  (j + d = 11)%nat -> (1 <= j)%nat ->
  Forall (fun srv => handle srv = None) h ->
  fallback_running j h p ->
  nextTickQueue p = emitErrorNT (length h) code :: rest ->
  exitCode (run os d p) = Some 1.
Proof.
  induction d as [|d IH]; intros j h p code rest Hd Hj Hh Hrun Hhead.
  - apply running_bound in Hrun. lia.
  - cbn [run]. destruct (error_turn j h p code rest Hh Hrun Hhead) as [Hexit|Hnext].
    + now rewrite (run_exited os d _ 1 Hexit).
    + pose proof Hnext as (_ & _ & f & errs & tail & _ & _ & Hq & _ & [Herrs _] & _ & _ & _
                           & _ & _ & _ & Htwo).
      destruct errs as [|tk errs]; [now destruct Htwo; [lia|]|].
      apply Forall_cons in Herrs as [[code' ->] _].
      apply IH with (j := S j) (h := h) (code := code') (rest := errs ++ tail);
        [lia|lia|assumption|assumption|exact Hq].
Qed.

(** The first turn after the switch, when port 3000 is occupied: the
    fallback server gets a second 'listening' callback and a second 'error'
    listener, and port 3001 is tried. *)
Lemma switched_conflict reason h c n t :
  os n DEFAULT_PORT = ListenErr EADDRINUSE ->
  turn os (switched os reason h [] [] c n t None) =
  mkProcess (h ++ [mkServer Fallback (handle_of (os (S n) 3001) 3001)
                            [fallback_listening 3000; fallback_listening 3001]
                            [fallback_error (length h) 3000; fallback_error (length h) 3001]])
            [tick_of (os (S n) 3001) (length h)] [] c (S (S n))
            (Listen Fallback 3001 (os (S n) 3001)
               :: ConsoleLog "Port 3000 is in use, trying port 3001..."
               :: switch_trace reason (ListenErr EADDRINUSE) t) None.
Proof.
  intros Hos. unfold switched, turn. rewrite Hos.
  cbn [heap nextTickQueue timers clock listenCalls trace exitCode tick_of handle_of app
       run_tick].
  unfold emit_error. cbn [heap].
  rewrite list_lookup_middle by reflexivity.
  cbn [errorListeners call_all]. unfold mbind, JS_bind.
  rewrite fallback_error_next by (unfold DEFAULT_PORT, MAX_PORT; lia).
  rewrite startHttpServerWithFallback_spec.
  reflexivity.
Qed.

(** The first turn after the switch when port 3000 is free: the server
    serves on it. *)
Lemma switched_free reason h c n t :
  os n DEFAULT_PORT = ListenOk ->
  turn os (switched os reason h [] [] c n t None) =
  mkProcess (h ++ [mkServer Fallback (Some 3000) [] [fallback_error (length h) 3000]])
            [] [] c (S n)
            (announce "HTTP fallback server running on port 3000"
                      (switch_trace reason ListenOk t)) None.
Proof.
  intros Hos. unfold switched, turn. rewrite Hos.
  cbn [heap nextTickQueue timers clock listenCalls trace exitCode tick_of handle_of app
       run_tick].
  unfold emit_listening.
  cbn [heap nextTickQueue timers clock listenCalls trace exitCode].
  rewrite list_lookup_middle by reflexivity.
  rewrite insert_app_r_alt by lia. rewrite Nat.sub_diag. cbn [insert list_insert].
  reflexivity.
Qed.

(** The first turn after the switch when port 3000 fails with another
    error: the process exits. *)
Lemma switched_fatal reason h c n t code :
  os n DEFAULT_PORT = ListenErr code -> code <> EADDRINUSE ->
  exitCode (turn os (switched os reason h [] [] c n t None)) = Some 1.
Proof.
  intros Hos Hc. unfold switched, turn. rewrite Hos.
  cbn [heap nextTickQueue timers clock listenCalls trace exitCode tick_of handle_of app
       run_tick].
  unfold emit_error. cbn [heap].
  rewrite list_lookup_middle by reflexivity.
  cbn [errorListeners call_all]. unfold mbind, JS_bind.
  rewrite fallback_error_fatal by now left. reflexivity.
Qed.

(** The 'listening' event of the server bound on its second attempt runs
    the callback of the first attempt as well. *)
Lemma stale_callback h f c n t :
  handle f = Some 3001 ->
  listeningOnce f = [fallback_listening 3000; fallback_listening 3001] ->
  turn os (mkProcess (h ++ [f]) [emitListeningNT (length h)] [] c n t None) =
  mkProcess (h ++ [mkServer (requestListener f) (Some 3001) [] (errorListeners f)])
            [] [] c n
            (announce "HTTP fallback server running on port 3001"
               (announce "HTTP fallback server running on port 3000" t)) None.
Proof.
  intros Hf Hl. unfold turn.
  cbn [heap nextTickQueue timers clock listenCalls trace exitCode run_tick].
  unfold emit_listening.
  cbn [heap nextTickQueue timers clock listenCalls trace exitCode].
  rewrite list_lookup_middle by reflexivity.
  rewrite insert_app_r_alt by lia. rewrite Nat.sub_diag. cbn [insert list_insert].
  rewrite Hf, Hl. reflexivity.
Qed.

(** X14. Whenever the process serves through the bare http server on port
    3001 (it is running, no event is pending, and the socket it holds is
    the fallback server's on 3001), the console has announced a server
    running on port 3000 as well as the one on port 3001: the callback
    given to listen for the failed attempt on 3000 is still registered when
    the attempt on 3001 succeeds. *)
Theorem fallback_announces_stale_port (n : nat) :
  exitCode (execute os n) = None ->
  nextTickQueue (execute os n) = [] ->
  bound (execute os n) = [(Fallback, 3001)] ->
  printed_log "HTTP fallback server running on port 3000" (execute os n) = true /\
  printed_log "HTTP fallback server running on port 3001" (execute os n) = true.
Proof.
  intros He Hq Hb.
  assert (Hts : timers (execute os n) = []).
  { destruct (Inv_execute os n) as [Hh _ _ | h early _ _ (f & late & _ & _ & Hts & _)];
      [|exact Hts].
    exfalso. apply sockets_primary in Hh. unfold bound in Hb. fold socket in Hb.
    rewrite Hb in Hh. apply Forall_cons in Hh as [Hx _]. discriminate Hx. }
  assert (Hfix : forall d, execute os (n + d) = execute os n)
    by (intros d; rewrite execute_add; apply run_fixed; now apply idle_fixed).
  destruct (primary_outcome os) as (k & Hk & [Hs|(reason & r & n0 & t & Hs)]).
  - exfalso. rewrite <- (Hfix (S (2 * k))), Nat.add_comm, execute_add, Hs, serving_settled in Hb.
    destruct (serving_facts k Hk) as (Hb' & _). rewrite Hb' in Hb. discriminate Hb.
  - set (h := failed_servers k ++ [primary_attempt k (ListenErr r)]) in *.
    assert (Hh : Forall (fun srv => handle srv = None) h).
    { apply Forall_app. split; [apply failed_servers_unbound|now repeat constructor]. }
    assert (Hlate : forall d, execute os n
                              = run os (d + n) (switched os reason h [] [] (elapsed k) n0 t None)).
    { intros d. rewrite <- Hs, <- execute_add, <- (Hfix (S (2 * k) + d)%nat). f_equal. lia. }
    destruct (os n0 DEFAULT_PORT) as [|code] eqn:Ha0.
    + (* port 3000 is free *)
      exfalso. rewrite (Hlate 1%nat) in Hb. cbn [Nat.add run] in Hb.
      rewrite switched_free in Hb by assumption.
      rewrite run_fixed in Hb by now apply idle_fixed.
      unfold bound in Hb. fold socket in Hb. cbn [heap] in Hb.
      erewrite sockets_last in Hb; [|exact Hh|reflexivity]. discriminate Hb.
    + destruct (String.eqb_spec code EADDRINUSE) as [->|Hcode].
      * pose proof (switched_conflict reason h (elapsed k) n0 t Ha0) as Hturn.
        destruct (os (S n0) 3001) as [|code1] eqn:Ha1.
        -- (* port 3001 is free *)
           rewrite (Hlate 2%nat). cbn [Nat.add run]. rewrite Hturn.
           cbn [handle_of tick_of].
           rewrite stale_callback by reflexivity.
           rewrite run_fixed by now apply idle_fixed.
           split; reflexivity.
        -- (* port 3001 fails too *)
           exfalso. rewrite (Hlate 11%nat) in He.
           change (11 + n)%nat with (S (10 + n)) in He. cbn [run] in He.
           rewrite run_add in He.
           assert (Hrun : fallback_running 1 h
                            (turn os (switched os reason h [] [] (elapsed k) n0 t None))).
           { destruct (error_turn 0 h _ EADDRINUSE [] Hh
                         (switched_running os reason h (elapsed k) n0 t)) as [Hx|Hr].
             - unfold switched. now rewrite Ha0.
             - rewrite Hturn in Hx. discriminate Hx.
             - exact Hr. }
           rewrite (run_exited os n _ 1) in He.
           ++ rewrite (doomed 10 1 h _ code1 []) in He;
                [discriminate He|lia|lia|assumption|assumption|].
              rewrite Hturn. reflexivity.
           ++ apply (doomed 10 1 h _ code1 []); [lia|lia|assumption|assumption|].
              rewrite Hturn. reflexivity.
      * (* another error on port 3000 *)
        exfalso. rewrite (Hlate 1%nat) in He. cbn [Nat.add run] in He.
        rewrite (run_exited os n _ 1) in He
          by (now apply switched_fatal with (code := code)).
        rewrite (switched_fatal reason h (elapsed k) n0 t code Ha0 Hcode) in He.
        discriminate He.
Qed.

End StaleBanner.

Lemma fallback_announces_stale_port_witness :
  exitCode (execute (denied_then_busy_below 3001) 3) = None /\
  nextTickQueue (execute (denied_then_busy_below 3001) 3) = [] /\
  bound (execute (denied_then_busy_below 3001) 3) = [(Fallback, 3001)] /\
  printed_log "HTTP fallback server running on port 3000"
              (execute (denied_then_busy_below 3001) 3) = true /\
  printed_log "HTTP fallback server running on port 3001"
              (execute (denied_then_busy_below 3001) 3) = true.
Proof.
  assert (H1 : exitCode (execute (denied_then_busy_below 3001) 3) = None)
    by (vm_compute; reflexivity).
  assert (H2 : nextTickQueue (execute (denied_then_busy_below 3001) 3) = [])
    by (vm_compute; reflexivity).
  assert (H3 : bound (execute (denied_then_busy_below 3001) 3) = [(Fallback, 3001)])
    by (vm_compute; reflexivity).
  split; [exact H1|]. split; [exact H2|]. split; [exact H3|].
  exact (fallback_announces_stale_port (denied_then_busy_below 3001) 3 H1 H2 H3).
Defined.

End AcquisitionFacts.

Module ResponderFacts.
Import Responder.

(** A listener keeps no state: the response to a request is the one the
    listener computes from that request, whatever was served before. *)
Lemma response_after_last (l : Listener) prior timestamp req :
  response_after l prior timestamp req = Some (l timestamp req).2.
Proof.
  unfold response_after. induction prior as [|[ts0 r0] prior IH].
  - cbn. now destruct (l timestamp req).
  - rewrite <- app_comm_cons. cbn [serve]. destruct (l ts0 r0) as [out0 resp0].
    destruct (serve l (prior ++ [(timestamp, req)])) as [out rs].
    cbn [snd] in *. destruct rs as [|r rs]; [discriminate IH|].
    rewrite <- IH. reflexivity.
Qed.

Lemma error_status_range e : 400 <= Express.getErrorStatusCode e < 600.
Proof.
  unfold Express.getErrorStatusCode.
  destruct (Z.leb_spec 400 (status e)), (Z.ltb_spec (status e) 600); cbn; lia.
Qed.

(** What the Express application answers to a GET request on one of its two
    routes. *)
Lemma app_route (timestamp : string) (req : Request) (data : string) :
  method req = "GET" ->
  (url req = "/" /\ data = "Hello World!") \/
  (url req = "/good-evening" /\ data = "Good evening") ->
  (appListener timestamp req).2 =
  match jsonFailure req with
  | Some e => Express.finalhandler_error e req
  | None => if fresh req data then mkResponse 304 EmptyString EmptyString
            else mkResponse 200 Express.HTML data
  end.
Proof.
  intros Hm Hu. unfold appListener, app.
  cbn [Express.handle logger express_json Express.done_error].
  destruct (jsonFailure req) as [e|]; [reflexivity|].
  destruct Hu as [[Hu ->]|[Hu ->]]; rewrite Hu, Hm; cbn;
    unfold Express.req_fresh; rewrite Hm; cbn;
    now destruct (fresh req _).
Qed.

Lemma fallback_route (timestamp : string) (req : Request) (data : string) :
  method req = "GET" ->
  (url req = "/" /\ data = "Hello World!") \/
  (url req = "/good-evening" /\ data = "Good evening") ->
  (fallbackListener timestamp req).2 = mkResponse 200 "text/plain" data.
Proof.
  intros Hm [[Hu ->]|[Hu ->]]; unfold fallbackListener; now rewrite Hm, Hu.
Qed.

Lemma route_answer (s : Strategy) (timestamp : string) (req : Request) (data : string) :
  method req = "GET" ->
  (url req = "/" /\ data = "Hello World!") \/
  (url req = "/good-evening" /\ data = "Good evening") ->
  (s = Fallback ->
   statusCode (listener s timestamp req).2 = 200 /\
   body (listener s timestamp req).2 = data) /\
  (s = Primary -> jsonFailure req = None -> fresh req data = false ->
   statusCode (listener s timestamp req).2 = 200 /\
   body (listener s timestamp req).2 = data) /\
  (s = Primary -> jsonFailure req = None -> fresh req data = true ->
   (listener s timestamp req).2 = mkResponse 304 EmptyString EmptyString) /\
  (s = Primary -> forall e, jsonFailure req = Some e ->
   statusCode (listener s timestamp req).2 = Express.getErrorStatusCode e /\
   400 <= statusCode (listener s timestamp req).2 < 600).
Proof.
  intros Hm Hu. destruct s; cbn [listener].
  - rewrite (app_route timestamp req data Hm Hu).
    split; [discriminate|].
    split; [intros _ -> ->; now split|].
    split; [now intros _ -> ->|].
    intros _ e ->. split; [reflexivity|apply error_status_range].
  - rewrite (fallback_route timestamp req data Hm Hu).
    split; [now split|]. repeat split; discriminate.
Qed.

(** C6, as amended. After any sequence of earlier requests, a GET request
    for / (for /good-evening) is answered with status 200 and body Hello
    World! (Good evening) by the bare http server, and by the Express
    application when express.json() accepts the request and res.send does
    not find it fresh.  The Express application answers a fresh request
    with 304, no Content-Type and no body, and a request that express.json()
    rejects with the status of the error, between 400 and 599. *)
Theorem fixed_routes_answer_200 (s : Strategy) (prior : list (string * Request))
        (timestamp : string) (req : Request) (path data : string) :
  (path = "/" /\ data = "Hello World!") \/
  (path = "/good-evening" /\ data = "Good evening") ->
  method req = "GET" ->
  url req = path ->
  exists r, response_after (listener s) prior timestamp req = Some r /\
    (s = Fallback -> statusCode r = 200 /\ body r = data) /\
    (s = Primary -> jsonFailure req = None -> fresh req data = false ->
     statusCode r = 200 /\ body r = data) /\
    (s = Primary -> jsonFailure req = None -> fresh req data = true ->
     r = mkResponse 304 EmptyString EmptyString) /\
    (s = Primary -> forall e, jsonFailure req = Some e ->
     statusCode r = Express.getErrorStatusCode e /\ 400 <= statusCode r < 600).
Proof.
  intros Hroute Hm <-. rewrite response_after_last. eexists.
  split; [reflexivity|]. now apply route_answer.
Qed.

Lemma fixed_routes_answer_200_witness :
  (("/good-evening" = "/" /\ "Good evening" = "Hello World!") \/
   ("/good-evening" = "/good-evening" /\ "Good evening" = "Good evening")) /\
  method (mkRequest "GET" "/good-evening") = "GET" /\
  url (mkRequest "GET" "/good-evening") = "/good-evening" /\
  exists r, response_after (listener Primary)
                           [("2024-01-01T00:00:00.000Z", revalidating_get);
                            ("2024-01-01T00:00:01.000Z", mkRequest "POST" "/nowhere")]
                           "2024-01-01T00:00:02.000Z" (mkRequest "GET" "/good-evening")
            = Some r /\
    (Primary = Fallback -> statusCode r = 200 /\ body r = "Good evening") /\
    (Primary = Primary -> jsonFailure (mkRequest "GET" "/good-evening") = None ->
     fresh (mkRequest "GET" "/good-evening") "Good evening" = false ->
     statusCode r = 200 /\ body r = "Good evening") /\
    (Primary = Primary -> jsonFailure (mkRequest "GET" "/good-evening") = None ->
     fresh (mkRequest "GET" "/good-evening") "Good evening" = true ->
     r = mkResponse 304 EmptyString EmptyString) /\
    (Primary = Primary ->
     forall e, jsonFailure (mkRequest "GET" "/good-evening") = Some e ->
     statusCode r = Express.getErrorStatusCode e /\ 400 <= statusCode r < 600).
Proof.
  assert (H1 : ("/good-evening" = "/" /\ "Good evening" = "Hello World!") \/
               ("/good-evening" = "/good-evening" /\ "Good evening" = "Good evening"))
    by (right; split; reflexivity).
  assert (H2 : method (mkRequest "GET" "/good-evening") = "GET") by reflexivity.
  assert (H3 : url (mkRequest "GET" "/good-evening") = "/good-evening") by reflexivity.
  split; [exact H1|]. split; [exact H2|]. split; [exact H3|].
  exact (fixed_routes_answer_200 Primary
           [("2024-01-01T00:00:00.000Z", revalidating_get);
            ("2024-01-01T00:00:01.000Z", mkRequest "POST" "/nowhere")]
           "2024-01-01T00:00:02.000Z" (mkRequest "GET" "/good-evening")
           "/good-evening" "Good evening" H1 H2 H3).
Defined.

(** C6, as stated, fails under the Primary strategy: not every GET request
    for / is answered with status 200 and body Hello World!.  The request
    with If-None-Match: * is answered 304 without a body. *)
Lemma conditional_get_is_answered_304 :
  ~ (forall (s : Strategy) (prior : list (string * Request)) (timestamp : string)
            (req : Request),
       method req = "GET" -> url req = "/" ->
       exists r, response_after (listener s) prior timestamp req = Some r /\
                 statusCode r = 200 /\ body r = "Hello World!").
Proof.
  intros H.
  destruct (H Primary [] EmptyString revalidating_get eq_refl eq_refl) as (r & Hr & Hs & _).
  rewrite response_after_last in Hr. injection Hr as <-. discriminate Hs.
Qed.

(** The two requests at which C6 fails, and what Express makes of them. *)
Example revalidating_get_304 timestamp :
  (listener Primary timestamp revalidating_get).2 = mkResponse 304 EmptyString EmptyString /\
  (listener Fallback timestamp revalidating_get).2
    = mkResponse 200 "text/plain" "Hello World!".
Proof. split; reflexivity. Qed.

Example malformed_json_get_400 timestamp trace :
  statusCode (listener Primary timestamp (malformed_json_get trace)).2 = 400 /\
  (listener Primary timestamp (malformed_json_get trace)).1
    = ["[" +:+ timestamp +:+ "] GET /"; trace] /\
  (listener Fallback timestamp (malformed_json_get trace)).2
    = mkResponse 200 "text/plain" "Hello World!".
Proof. repeat split; reflexivity. Qed.

Lemma eqb_false_of_ne (a b : string) : a <> b -> String.eqb a b = false.
Proof. intros H. now apply String.eqb_neq. Qed.

(** C10. The fallback listener compares the whole request target: a GET
    request whose target is neither exactly / nor exactly /good-evening is
    answered with status 404 and body Not Found. *)
Theorem fallback_matches_whole_target (timestamp : string) (req : Request) :
  method req = "GET" ->
  url req <> "/" ->
  url req <> "/good-evening" ->
  (fallbackListener timestamp req).2 = mkResponse 404 "text/plain" "Not Found".
Proof.
  intros _ H1 H2. unfold fallbackListener. cbn [snd].
  rewrite (eqb_false_of_ne _ _ H1), (eqb_false_of_ne _ _ H2).
  now rewrite !andb_false_r.
Qed.

Lemma fallback_matches_whole_target_witness :
  method (mkRequest "GET" "/good-evening?x=1") = "GET" /\
  url (mkRequest "GET" "/good-evening?x=1") <> "/" /\
  url (mkRequest "GET" "/good-evening?x=1") <> "/good-evening" /\
  (fallbackListener "2024-01-01T00:00:00.000Z" (mkRequest "GET" "/good-evening?x=1")).2
    = mkResponse 404 "text/plain" "Not Found".
Proof.
  assert (H1 : method (mkRequest "GET" "/good-evening?x=1") = "GET") by reflexivity.
  assert (H2 : url (mkRequest "GET" "/good-evening?x=1") <> "/") by (cbn; discriminate).
  assert (H3 : url (mkRequest "GET" "/good-evening?x=1") <> "/good-evening")
    by (cbn; discriminate).
  split; [exact H1|]. split; [exact H2|]. split; [exact H3|].
  exact (fallback_matches_whole_target _ _ H1 H2 H3).
Defined.

(** The other two targets the claim names. *)
Example fallback_query_on_root timestamp :
  (fallbackListener timestamp (mkRequest "GET" "/?x=1")).2
    = mkResponse 404 "text/plain" "Not Found".
Proof. reflexivity. Qed.

Example fallback_trailing_slash timestamp :
  (fallbackListener timestamp (mkRequest "GET" "/good-evening/")).2
    = mkResponse 404 "text/plain" "Not Found".
Proof. reflexivity. Qed.

(** Whatever the request, the fallback listener answers in text/plain, and
    with 404 Not Found unless it is one of the two GET requests. *)
Lemma fallback_plain timestamp req :
  contentType (fallbackListener timestamp req).2 = "text/plain".
Proof.
  unfold fallbackListener. cbn [snd].
  destruct (_ && _); [reflexivity|]. now destruct (_ && _).
Qed.

Lemma fallback_not_found timestamp req :
  ~ (method req = "GET" /\ url req = "/") ->
  ~ (method req = "GET" /\ url req = "/good-evening") ->
  (fallbackListener timestamp req).2 = mkResponse 404 "text/plain" "Not Found".
Proof.
  intros H1 H2. unfold fallbackListener. cbn [snd].
  destruct (String.eqb_spec (method req) "GET") as [Hm|Hm]; [|reflexivity].
  cbn [andb].
  destruct (String.eqb_spec (url req) "/") as [Hu|Hu]; [now destruct H1|].
  destruct (String.eqb_spec (url req) "/good-evening") as [Hv|Hv]; [now destruct H2|].
  reflexivity.
Qed.

(** C1 at its failing inputs.  GET /foo is unmatched under both strategies:
    the fallback listener answers 404 with body Not Found, the Express
    application answers 404 with the HTML page of finalhandler.  The status
    differs too: /good-evening/ and HEAD / are served with 200 by Express
    and with 404 by the fallback listener. *)
Theorem unmatched_responses_differ (timestamp : string) :
  (listener Fallback timestamp (mkRequest "GET" "/foo")).2
    = mkResponse 404 "text/plain" "Not Found" /\
  statusCode (listener Primary timestamp (mkRequest "GET" "/foo")).2 = 404 /\
  body (listener Primary timestamp (mkRequest "GET" "/foo")).2 <> "Not Found" /\
  statusCode (listener Primary timestamp (mkRequest "GET" "/good-evening/")).2 = 200 /\
  statusCode (listener Fallback timestamp (mkRequest "GET" "/good-evening/")).2 = 404 /\
  statusCode (listener Primary timestamp (mkRequest "HEAD" "/")).2 = 200 /\
  statusCode (listener Fallback timestamp (mkRequest "HEAD" "/")).2 = 404.
Proof. repeat split; try reflexivity. vm_compute. discriminate. Qed.

(** C7 at its failing input.  The Express application serves GET / (and
    the unmatched GET /foo) as text/html; charset=utf-8, where the fallback
    listener serves every request as text/plain. *)
Theorem primary_serves_html (timestamp : string) :
  contentType (listener Primary timestamp (mkRequest "GET" "/")).2
    = "text/html; charset=utf-8" /\
  contentType (listener Primary timestamp (mkRequest "GET" "/foo")).2
    = "text/html; charset=utf-8" /\
  (forall req, contentType (listener Fallback timestamp req).2 = "text/plain").
Proof. repeat split. intros req. apply fallback_plain. Qed.

(** ** Logging, and the query string *)

Lemma listener_console (s : Strategy) timestamp req :
  (listener s timestamp req).1 = console_of s timestamp req.
Proof.
  destruct s; [|reflexivity].
  unfold listener, appListener, app, console_of.
  cbn [Express.handle logger express_json Express.done_error].
  destruct (jsonFailure req); [reflexivity|].
  repeat match goal with
         | |- context [if ?b then _ else _] => destruct b
         end; reflexivity.
Qed.

(** X9. When the requests arrive one after the other, under either
    strategy every request, matched or not, first prints one console line
    made of the timestamp, the method and the request target (followed by
    (HTTP Fallback) on the bare http server); the Express application
    prints after it the stack of the error when express.json() rejects the
    request; nothing else is printed, every request gets exactly one
    response, and the output appears in the order of the requests. *)
Theorem console_lines_per_request (s : Strategy) (arrivals : list (string * Request)) :
  (serve (listener s) arrivals).1
    = concat (map (fun a => console_of s a.1 a.2) arrivals) /\
  length (serve (listener s) arrivals).2 = length arrivals.
Proof.
  induction arrivals as [|[ts req] rest [IH1 IH2]]; [now split|].
  cbn [serve]. pose proof (listener_console s ts req) as Hl.
  destruct (listener s ts req) as [out r]. cbn [fst] in Hl. subst out.
  destruct (serve (listener s) rest) as [out' rs]. cbn [fst snd] in *.
  split; [now rewrite IH1|]. cbn. now rewrite IH2.
Qed.

(** The Express application reads the target of a request through its
    pathname only, the logged line apart. *)
Lemma app_reads_pathname timestamp req u u' :
  Express.pathname u = Express.pathname u' ->
  (appListener timestamp (with_url req u)).2 = (appListener timestamp (with_url req u')).2.
Proof.
  intros Hp. unfold appListener, app, with_url.
  cbn [Express.handle logger express_json Express.done_error jsonFailure url method].
  unfold Express.finalhandler_error, Express.finalhandler, Express.send, Express.req_fresh.
  cbn [jsonFailure url method fresh].
  rewrite Hp. destruct (jsonFailure req); [reflexivity|].
  repeat match goal with
         | |- context [if ?b then _ else _] => destruct b
         end; reflexivity.
Qed.

(** X11. A query string splits the two strategies.  For every GET request
    and every query q, the Express application answers the request sent to
    /?q as it answers it sent to /, and sent to /good-evening?q as sent to
    /good-evening, whatever its headers and body; the bare http server
    answers 200 on / and /good-evening and 404 on /?q and /good-evening?q. *)
Theorem query_string_splits_strategies (timestamp q : string) (req : Request) :
  method req = "GET" ->
  ((listener Primary timestamp (with_url req ("/?" +:+ q))).2
     = (listener Primary timestamp (with_url req "/")).2 /\
   statusCode (listener Fallback timestamp (with_url req "/")).2 = 200 /\
   statusCode (listener Fallback timestamp (with_url req ("/?" +:+ q))).2 = 404) /\
  ((listener Primary timestamp (with_url req ("/good-evening?" +:+ q))).2
     = (listener Primary timestamp (with_url req "/good-evening")).2 /\
   statusCode (listener Fallback timestamp (with_url req "/good-evening")).2 = 200 /\
   statusCode (listener Fallback timestamp (with_url req ("/good-evening?" +:+ q))).2 = 404).
Proof.
  intros Hm. split; (split; [now apply app_reads_pathname|]);
    unfold listener, fallbackListener, with_url; cbn [method url snd]; rewrite Hm;
    split; reflexivity.
Qed.

Lemma query_string_splits_strategies_witness :
  method revalidating_get = "GET" /\
  ((listener Primary "2024-01-01T00:00:00.000Z" (with_url revalidating_get ("/?" +:+ "a=1"))).2
     = (listener Primary "2024-01-01T00:00:00.000Z" (with_url revalidating_get "/")).2 /\
   statusCode (listener Fallback "2024-01-01T00:00:00.000Z"
                        (with_url revalidating_get "/")).2 = 200 /\
   statusCode (listener Fallback "2024-01-01T00:00:00.000Z"
                        (with_url revalidating_get ("/?" +:+ "a=1"))).2 = 404) /\
  ((listener Primary "2024-01-01T00:00:00.000Z"
             (with_url revalidating_get ("/good-evening?" +:+ "a=1"))).2
     = (listener Primary "2024-01-01T00:00:00.000Z"
                 (with_url revalidating_get "/good-evening")).2 /\
   statusCode (listener Fallback "2024-01-01T00:00:00.000Z"
                        (with_url revalidating_get "/good-evening")).2 = 200 /\
   statusCode (listener Fallback "2024-01-01T00:00:00.000Z"
                        (with_url revalidating_get ("/good-evening?" +:+ "a=1"))).2 = 404).
Proof.
  assert (H : method revalidating_get = "GET") by reflexivity.
  split; [exact H|].
  exact (query_string_splits_strategies "2024-01-01T00:00:00.000Z" "a=1" revalidating_get H).
Defined.

End ResponderFacts.
